(** * Hambits r0tor backend (hambits/hambits.c): model and properties

    A shallow embedding of the Hamlib backend for the Hambits r0tor
    azimuth/elevation rotator.  The backend consists of a transaction
    routine over the serial port ([hambits_transaction]) and of the rotator
    operations built on it ([hambits_set_position], [hambits_get_position],
    [hambits_stop], [hambits_park], [hambits_reset], [hambits_move]).

    The serial port is not part of the backend: its behaviour is a parameter
    of the model (the results of the successive [write_block] and
    [read_string] calls), and every call made on it is recorded in a log.
    Calls to [rig_debug] only print and are left out. *)

From Stdlib Require Import ZArith List String Ascii Bool Lia.
From Stdlib Require Import Floats.SpecFloat.
From Stdlib Require DecimalString.
Import ListNotations.

Local Open Scope string_scope.
Local Open Scope Z_scope.

(** ** Result codes and direction constants

    [enum rig_errcode_e] of hamlib/rig.h and the [ROT_MOVE_*] macros of
    hamlib/rotator.h, which the backend includes. *)

Definition RIG_OK : Z := 0.
Definition RIG_EINVAL : Z := 1.
Definition RIG_ECONF : Z := 2.
Definition RIG_ENOMEM : Z := 3.
Definition RIG_ENIMPL : Z := 4.
Definition RIG_ETIMEOUT : Z := 5.
Definition RIG_EIO : Z := 6.

Definition ROT_MOVE_UP : Z := Z.shiftl 1 1.
Definition ROT_MOVE_DOWN : Z := Z.shiftl 1 2.
Definition ROT_MOVE_LEFT : Z := Z.shiftl 1 3.
Definition ROT_MOVE_CCW : Z := ROT_MOVE_LEFT.
Definition ROT_MOVE_RIGHT : Z := Z.shiftl 1 4.
Definition ROT_MOVE_CW : Z := ROT_MOVE_RIGHT.

(** [size_t] is an unsigned 64-bit integer; storing an [int] into it
    reduces the value modulo [2^64]. *)

Definition SIZE_WIDTH : Z := 64.
Definition to_size_t (n : Z) : Z := n mod 2 ^ SIZE_WIDTH.

(** ** C strings *)

Module CString.

(** The part of a byte buffer that C string functions see: everything
    before the first NUL. *)
Fixpoint until_nul (s : string) : string :=
  match s with
  | EmptyString => EmptyString
  | String c r => if Ascii.eqb c zero then EmptyString else String c (until_nul r)
  end.

(** [strstr haystack needle]: the suffix of [haystack] that starts at the
    first occurrence of [needle], [None] for a NULL result. *)
Fixpoint strstr (haystack needle : string) : option string :=
  if String.prefix needle haystack then Some haystack
  else match haystack with
       | EmptyString => None
       | String _ r => strstr r needle
       end.

(** [p + 1] for a pointer [p] into a zero-filled buffer: one character
    further, and still an empty string when [p] was at the terminator. *)
Definition advance (s : string) : string :=
  match s with
  | EmptyString => EmptyString
  | String _ r => r
  end.

Definition isspace (c : ascii) : bool :=
  let n := N_of_ascii c in
  (n =? 32)%N || ((9 <=? n)%N && (n <=? 13)%N).

Definition isdigit (c : ascii) : bool :=
  let n := N_of_ascii c in
  (48 <=? n)%N && (n <=? 57)%N.

Definition digit_value (c : ascii) : Z := Z.of_N (N_of_ascii c) - 48.

Fixpoint skip_space (s : string) : string :=
  match s with
  | String c r => if isspace c then skip_space r else s
  | EmptyString => s
  end.

(** An optional sign: [true] for a minus. *)
Definition read_sign (s : string) : bool * string :=
  match s with
  | String "-" r => (true, r)
  | String "+" r => (false, r)
  | _ => (false, s)
  end.

(** Reads a run of decimal digits, continuing the number [acc]; returns
    the number, how many digits were read, and the rest. *)
Fixpoint read_digits (acc count : Z) (s : string) : Z * Z * string :=
  match s with
  | String c r =>
      if isdigit c then read_digits (10 * acc + digit_value c) (count + 1) r
      else (acc, count, s)
  | EmptyString => (acc, count, s)
  end.

(** A natural number in decimal. *)
Definition decimal (n : Z) : string :=
  DecimalString.NilZero.string_of_uint (N.to_uint (Z.to_N n)).

Definition digit_char (d : Z) : ascii := ascii_of_N (Z.to_N (48 + d)).

(** The [0] flag of a conversion: zeros on the left up to [width]. *)
Fixpoint zeros (n : nat) : string :=
  match n with
  | O => EmptyString
  | S k => String "0" (zeros k)
  end.

Definition pad_zero (width : nat) (s : string) : string :=
  zeros (width - String.length s) ++ s.

End CString.

(** ** Floating-point values

    [azimuth_t] and [elevation_t] are C [float]s: IEEE 754 binary32,
    here the [spec_float] of the standard library at precision 24 and
    maximal exponent 128. *)

Module CFloat.

Import CString.

Definition prec : Z := 24.
Definition emax : Z := 128.

Definition float : Type := spec_float.

(** Conversion of an integer constant such as [180]. *)
Definition of_Z (z : Z) : float := binary_normalize prec emax z 0 false.

Definition leb (x y : float) : bool := SFleb x y.

(** The float nearest to [(-1)^neg * mant * 10^dexp], ties to even. *)
Definition of_decimal (neg : bool) (mant dexp : Z) : float :=
  match mant with
  | Zpos m =>
      let num := if 0 <=? dexp then Zpos m * 10 ^ dexp else Zpos m in
      let den := if 0 <=? dexp then 1 else 10 ^ (- dexp) in
      SFdiv prec emax (S754_finite neg (Z.to_pos num) 0)
                      (S754_finite false (Z.to_pos den) 0)
  | _ => S754_zero neg
  end.

(** The exponent part of a decimal floating constant, when there is one:
    [e] or [E], an optional sign and at least one digit. *)
Definition read_exponent (s : string) : Z * string :=
  match s with
  | String c r =>
      if Ascii.eqb c "e" || Ascii.eqb c "E" then
        let '(neg, r1) := read_sign r in
        let '(e, n, r2) := read_digits 0 0 r1 in
        if n =? 0 then (0, s) else ((if neg then - e else e), r2)
      else (0, s)
  | EmptyString => (0, s)
  end.

(** [strtof nptr &endptr] on decimal input: white space, an optional
    sign, digits with an optional point, an optional exponent.  Returns
    the value and the rest of the string ([endptr]); when no digit is
    found the value is zero and [endptr] is [nptr].  Hexadecimal constants
    and the spellings of infinity and NaN are not modelled. *)
Definition strtof (nptr : string) : float * string :=
  let s1 := skip_space nptr in
  let '(neg, s2) := read_sign s1 in
  let '(ip, ni, s3) := read_digits 0 0 s2 in
  let '(mant, nf, s4) :=
    match s3 with
    | String "." r => read_digits ip 0 r
    | _ => (ip, 0, s3)
    end in
  if ni + nf =? 0 then (S754_zero false, nptr)
  else
    let '(e, s5) := read_exponent s4 in
    (of_decimal neg mant (e - nf), s5).

(** Division rounded to the nearest integer, ties to even. *)
Definition div_nearest_even (num den : Z) : Z :=
  let q := num / den in
  match 2 * (num mod den) ?= den with
  | Lt => q
  | Gt => q + 1
  | Eq => if Z.even q then q else q + 1
  end.

(** The magnitude [m * 2^e] in hundredths, correctly rounded. *)
Definition hundredths (m : positive) (e : Z) : Z :=
  if 0 <=? e then Zpos m * 100 * 2 ^ e
  else div_nearest_even (Zpos m * 100) (2 ^ (- e)).

Definition fixed2 (h : Z) : string :=
  decimal (h / 100)
  ++ String "." (String (digit_char (h mod 100 / 10))
                (String (digit_char (h mod 10)) EmptyString)).

Definition sign_string (neg : bool) : string := if neg then "-" else "".

(** The conversion [%03.2f] of [num_sprintf] (a [sprintf] in the C
    locale): two digits after the point, and zeros on the left up to a
    total field width of 3.  The float is promoted to [double] exactly. *)
Definition format_03_2f (x : float) : string :=
  match x with
  | S754_zero neg => sign_string neg ++ pad_zero (3 - String.length (sign_string neg)) (fixed2 0)
  | S754_finite neg m e =>
      sign_string neg
      ++ pad_zero (3 - String.length (sign_string neg)) (fixed2 (hundredths m e))
  | S754_infinity neg => sign_string neg ++ "inf"
  | S754_nan => "nan"
  end.

End CFloat.

(** ** The serial port

    [serial_flush], [write_block] and [read_string] belong to Hamlib's
    port layer.  What they answer is given by the environment: [on_write k]
    is the value that the [k]-th call of [write_block] returns, and
    [on_read k] is the value that the [k]-th call of [read_string] returns
    together with the bytes it has stored in the buffer.  The port counts
    the calls and logs them in order. *)

Inductive port_event : Type :=
| Flush
| Write (cmd : string)
| Read (rxmax : Z).

Record hamlib_port : Type := {
  retry : Z;
  on_write : nat -> Z;
  on_read : nat -> Z * string;
  writes : nat;
  reads : nat;
  log : list port_event
}.

(** A reply of the device that [read_string] has read in full: the
    number of characters is returned and the characters are in the buffer. *)
Definition reply (s : string) : Z * string := (Z.of_nat (String.length s), s).

(** A read during which nothing arrives: [read_string] gives up with the
    negative timeout code and the buffer stays empty. *)
Definition timed_out : Z * string := (- RIG_ETIMEOUT, "").

(** The answers of a port that follow a finite list, then a default. *)
Definition script {A : Type} (l : list A) (d : A) (k : nat) : A := nth k l d.

(** ** Driver state *)

Record timeval : Type := { tv_sec : Z; tv_usec : Z }.

Record hambits_priv_data : Type := {
  az : CFloat.float;
  el : CFloat.float;
  tv : timeval;
  target_az : CFloat.float;
  target_el : CFloat.float
}.

Record ROT : Type := {
  priv : hambits_priv_data;
  rotport : hamlib_port
}.

Definition current (rot : ROT) : CFloat.float * CFloat.float :=
  (az (priv rot), el (priv rot)).

Definition target (rot : ROT) : CFloat.float * CFloat.float :=
  (target_az (priv rot), target_el (priv rot)).

(** Local variables that a function reads before it has written them hold
    whatever the stack held: [return_str] and [return_str_size] of
    [hambits_set_position] and [hambits_get_position] when the transaction
    returns before its read, [az] and [el] of [hambits_stop]. *)
Record stack_garbage : Type := {
  g_str : string;
  g_size : Z;
  g_az : CFloat.float;
  g_el : CFloat.float
}.

(** The reply buffer of a transaction and the [size_t] that [data_len]
    points to. *)
Record reply_buf : Type := {
  data : string;
  data_len : Z
}.

(** ** Computations on the rotator

    A computation reads and updates the [ROT] structure and returns a
    value; [None] is a loop that was cut off before it returned. *)

Module RotM.

Definition M (A : Type) : Type := ROT -> option (A * ROT).

Definition ret {A : Type} (a : A) : M A := fun rot => Some (a, rot).

Definition bind {A B : Type} (c : M A) (k : A -> M B) : M B :=
  fun rot =>
    match c rot with
    | Some (a, rot') => k a rot'
    | None => None
    end.

Definition cut_off {A : Type} : M A := fun _ => None.

Definition get_priv : M hambits_priv_data := fun rot => Some (priv rot, rot).

Definition set_priv (p : hambits_priv_data) : M unit :=
  fun rot => Some (tt, {| priv := p; rotport := rotport rot |}).

Definition get_retry : M Z := fun rot => Some (retry (rotport rot), rot).

(** Runs an operation of the port layer on [rot->state.rotport]. *)
Definition on_port {A : Type} (f : hamlib_port -> A * hamlib_port) : M A :=
  fun rot =>
    let '(a, p) := f (rotport rot) in
    Some (a, {| priv := priv rot; rotport := p |}).

End RotM.

Import RotM.

Notation "x <- c ;; k" := (bind c (fun x => k))
  (at level 61, c at next level, right associativity).
Notation "' pat <- c ;; k" := (bind c (fun x => match x with pat => k end))
  (at level 61, pat pattern, c at next level, right associativity).
Notation "c ;; k" := (bind c (fun _ => k))
  (at level 61, right associativity).

Definition serial_flush (p : hamlib_port) : unit * hamlib_port :=
  (tt, {| retry := retry p; on_write := on_write p; on_read := on_read p;
          writes := writes p; reads := reads p;
          log := log p ++ [Flush] |}).

Definition write_block (cmd : string) (p : hamlib_port) : Z * hamlib_port :=
  (on_write p (writes p),
   {| retry := retry p; on_write := on_write p; on_read := on_read p;
      writes := S (writes p); reads := reads p;
      log := log p ++ [Write cmd] |}).

Definition read_string (rxmax : Z) (p : hamlib_port) : (Z * string) * hamlib_port :=
  (on_read p (reads p),
   {| retry := retry p; on_write := on_write p; on_read := on_read p;
      writes := writes p; reads := S (reads p);
      log := log p ++ [Read rxmax] |}).

(** ** The backend *)

Import CString CFloat.

(** [hambits_transaction]: one pass of the [while (1)] loop per unit of
    [fuel].  [cmdstr] and [data] are pointers, [None] for NULL; [data]
    carries what the caller's buffer and [*data_len] hold, and the result
    carries what they hold on return.  The buffer is cleared by [memset]
    before [read_string] fills it, so the bytes read are followed by zeros.
    [*data_len] is a [size_t]: the [int] that [read_string] returns is
    converted on assignment, and the test [*data_len < 0] is made on the
    converted value. *)
Fixpoint transaction_loop (fuel : nat) (cmdstr : option string)
    (data : option reply_buf) (expected_return_length retry_read : Z)
    : M (Z * option reply_buf) :=
  match fuel with
  | O => cut_off
  | S fuel' =>
      on_port serial_flush ;;
      failed <- match cmdstr with
                | Some cmd =>
                    return_value <- on_port (write_block cmd) ;;
                    ret (if return_value =? RIG_OK then None
                         else Some return_value)
                | None => ret None
                end ;;
      match failed with
      | Some return_value => ret (return_value, data)
      | None =>
          match data with
          | Some _ =>
              '(n, bytes) <- on_port (read_string (expected_return_length + 1)) ;;
              let filled := {| data := bytes; data_len := to_size_t n |} in
              if data_len filled <? 0 then
                limit <- get_retry ;;
                if limit <=? retry_read then ret (RIG_ETIMEOUT, Some filled)
                else transaction_loop fuel' cmdstr (Some filled)
                       expected_return_length (retry_read + 1)
              else ret (RIG_OK, Some filled)
          | None => ret (RIG_OK, data)
          end
      end
  end.

(** Fuel for [retry + 1] passes: [retry_read] starts at 0, goes up by one
    per pass, and the loop returns once it has reached [rotport.retry]. *)
Definition hambits_transaction (cmdstr : option string) (data : option reply_buf)
    (expected_return_length : Z) : M (Z * option reply_buf) :=
  limit <- get_retry ;;
  transaction_loop (S (Z.to_nat limit)) cmdstr data expected_return_length 0.

(** What a local buffer holds after a transaction that was given its
    address. *)
Definition contents (after : option reply_buf) (before : reply_buf) : reply_buf :=
  match after with
  | Some b => b
  | None => before
  end.

Definition uninitialized (g : stack_garbage) : reply_buf :=
  {| data := g_str g; data_len := to_size_t (g_size g) |}.

(** [hambits_init]: [allocated] is the result of [malloc], [None] for
    NULL and otherwise what the fresh block holds in [tv], the one field
    that is left as it is. *)
Definition hambits_init (allocated : option timeval) : M Z :=
  match allocated with
  | None => ret (- RIG_ENOMEM)
  | Some t =>
      set_priv {| az := of_Z 0; el := of_Z 0; tv := t;
                  target_az := of_Z 0; target_el := of_Z 0 |} ;;
      ret RIG_OK
  end.

Definition hambits_open : M Z := ret RIG_OK.

Definition hambits_close : M Z :=
  '(return_value, _) <- hambits_transaction (Some "stop;") None 0 ;;
  ret return_value.

Definition set_target (a e : float) : M unit :=
  p <- get_priv ;;
  set_priv {| az := az p; el := el p; tv := tv p;
              target_az := a; target_el := e |}.

Definition set_current_and_target (a e : float) : M unit :=
  p <- get_priv ;;
  set_priv {| az := a; el := e; tv := tv p;
              target_az := a; target_el := e |}.

(** The command of [hambits_set_position]:
    [num_sprintf(cmd_str, "setaz%03.2f;setel%03.2f;", az, el)]. *)
Definition set_position_command (az el : float) : string :=
  ("setaz" ++ format_03_2f az ++ ";setel" ++ format_03_2f el ++ ";")%string.

Definition hambits_set_position (az el : float) (g : stack_garbage) : M Z :=
  set_target az el ;;
  let cmd_str := set_position_command az el in
  '(_, after) <- hambits_transaction (Some cmd_str) (Some (uninitialized g)) 2 ;;
  let return_str := data (contents after (uninitialized g)) in
  let return_str_size := data_len (contents after (uninitialized g)) in
  match (0 <? return_str_size), strstr (until_nul return_str) "11" with
  | true, Some _ => ret RIG_OK
  | _, _ => ret RIG_EINVAL
  end.

(** [hambits_get_position]: [az0] and [el0] are what [*az] and [*el] hold
    at the call; the result gives what they hold on return. *)
Definition hambits_get_position (az0 el0 : float) (g : stack_garbage)
    : M (Z * float * float) :=
  '(_, after) <- hambits_transaction (Some "getpos;") (Some (uninitialized g)) 15 ;;
  let return_str := data (contents after (uninitialized g)) in
  let return_str_size := data_len (contents after (uninitialized g)) in
  if 8 <? return_str_size then
    let '(a, pEnd) := strtof return_str in
    let e := fst (strtof (advance pEnd)) in
    ret (RIG_OK, a, e)
  else ret (RIG_EINVAL, az0, el0).

Definition hambits_stop (g : stack_garbage) : M Z :=
  '(return_value, _) <- hambits_transaction (Some "stop;") None 0 ;;
  if negb (return_value =? RIG_OK) then ret RIG_EINVAL
  else
    '(status, a, e) <- hambits_get_position (g_az g) (g_el g) g ;;
    if status =? RIG_OK then
      set_current_and_target a e ;;
      ret RIG_OK
    else ret RIG_EINVAL.

Definition hambits_park (g : stack_garbage) : M Z :=
  hambits_set_position (of_Z 0) (of_Z 0) g.

Definition hambits_reset (reset : Z) (g : stack_garbage) : M Z :=
  hambits_park g.

Definition hambits_move (direction speed : Z) (g : stack_garbage) : M Z :=
  p <- get_priv ;;
  if direction =? ROT_MOVE_UP then
    hambits_set_position (target_az p) (of_Z 180) g
  else if direction =? ROT_MOVE_DOWN then
    hambits_set_position (target_az p) (of_Z 0) g
  else if direction =? ROT_MOVE_CCW then
    hambits_set_position (of_Z 0) (target_el p) g
  else if direction =? ROT_MOVE_CW then
    hambits_set_position (of_Z 360) (target_el p) g
  else ret (- RIG_EINVAL).

Definition hambits_get_info : string :=
  "Hambits r0tor: open source Arduino rotor controller.".

(** [hambits_caps]: the limits that the backend declares. *)
Definition caps_timeout : Z := 400.
Definition caps_retry : Z := 5.
Definition caps_min_az : float := of_Z 0.
Definition caps_max_az : float := of_Z 360.
Definition caps_min_el : float := of_Z 0.
Definition caps_max_el : float := of_Z 180.

(** ** Vocabulary of the statements *)

Definition with_port (rot : ROT) (p : hamlib_port) : ROT :=
  {| priv := priv rot; rotport := p |}.

(** The port once a pass has flushed it and written the command, if any. *)
Definition sent (cmdstr : option string) (p : hamlib_port) : hamlib_port :=
  match cmdstr with
  | Some cmd => snd (write_block cmd (snd (serial_flush p)))
  | None => snd (serial_flush p)
  end.

(** What the next [write_block] is going to return; [RIG_OK] when there
    is nothing to write. *)
Definition write_status (cmdstr : option string) (p : hamlib_port) : Z :=
  match cmdstr with
  | Some _ => on_write p (writes p)
  | None => RIG_OK
  end.

(** What the next [read_string] is going to leave in the buffer and, once
    converted, in [*data_len]. *)
Definition received (p : hamlib_port) : reply_buf :=
  {| data := snd (on_read p (reads p));
     data_len := to_size_t (fst (on_read p (reads p))) |}.

(** The buffer of the caller after a transaction: filled by the read when
    the write went through, untouched otherwise. *)
Definition buffer_after (cmdstr : option string) (d : option reply_buf)
    (p : hamlib_port) : option reply_buf :=
  match d with
  | Some b => Some (if write_status cmdstr p =? RIG_OK then received p else b)
  | None => None
  end.

(** The port after a transaction: flushed once, the command written
    once, and one read made when the write went through and a reply is
    wanted. *)
Definition port_after (cmdstr : option string) (d : option reply_buf)
    (len : Z) (p : hamlib_port) : hamlib_port :=
  match d with
  | Some _ =>
      if write_status cmdstr p =? RIG_OK
      then snd (read_string (len + 1) (sent cmdstr p))
      else sent cmdstr p
  | None => sent cmdstr p
  end.

(** The test that [hambits_set_position] makes on the reply. *)
Definition accepted (b : reply_buf) : bool :=
  (0 <? data_len b)
  && match strstr (until_nul (data b)) "11" with
     | Some _ => true
     | None => false
     end.

Definition with_target (rot : ROT) (a e : float) : ROT :=
  {| priv := {| az := az (priv rot); el := el (priv rot); tv := tv (priv rot);
                target_az := a; target_el := e |};
     rotport := rotport rot |}.

Definition with_position (rot : ROT) (a e : float) : ROT :=
  {| priv := {| az := a; el := e; tv := tv (priv rot);
                target_az := a; target_el := e |};
     rotport := rotport rot |}.

(** The two numbers that [hambits_get_position] reads in a reply. *)
Definition parsed_az (s : string) : float := fst (strtof s).
Definition parsed_el (s : string) : float :=
  fst (strtof (advance (snd (strtof s)))).

(** 45.5 and 90.25 as binary32 values. *)
Definition deg_45_50 : float := S754_finite false 11927552 (-18).

(** A port with the retry count of [hambits_caps] whose writes and reads
    follow the given lists; once a list is used up, writes succeed and
    reads time out. *)
Definition scripted_port (ws : list Z) (rs : list (Z * string)) : hamlib_port :=
  {| retry := caps_retry;
     on_write := script ws RIG_OK;
     on_read := script rs timed_out;
     writes := 0; reads := 0; log := [] |}.

(** The rotator as [hambits_init] leaves it, on a scripted port. *)
Definition fresh_rot (ws : list Z) (rs : list (Z * string)) : ROT :=
  {| priv := {| az := of_Z 0; el := of_Z 0;
                tv := {| tv_sec := 0; tv_usec := 0 |};
                target_az := of_Z 0; target_el := of_Z 0 |};
     rotport := scripted_port ws rs |}.

Definition some_garbage : stack_garbage :=
  {| g_str := "?"; g_size := 0; g_az := of_Z 0; g_el := of_Z 0 |}.

(** The commands written to the port, in order. *)
Fixpoint commands (l : list port_event) : list string :=
  match l with
  | [] => []
  | Write cmd :: r => cmd :: commands r
  | _ :: r => commands r
  end.

Definition newline : string := String (ascii_of_nat 10) EmptyString.


(** Structural equality of floats (it separates the two zeros). *)
Definition same_float (x y : float) : bool :=
  match x, y with
  | S754_zero a, S754_zero b => Bool.eqb a b
  | S754_infinity a, S754_infinity b => Bool.eqb a b
  | S754_nan, S754_nan => true
  | S754_finite a m e, S754_finite b n f =>
      Bool.eqb a b && (m =? n)%positive && (e =? f)
  | _, _ => false
  end.

(** The float nearest to [h] hundredths of a degree. *)
Definition of_hundredths (h : Z) : float := of_decimal false h (-2).

(** [h] hundredths in the form [DDD.dd] of the command table: three
    integer digits, a point, two decimals. *)
Definition wire_DDD_dd (h : Z) : string :=
  String (digit_char (h / 10000 mod 10))
    (String (digit_char (h / 1000 mod 10))
       (String (digit_char (h / 100 mod 10))
          (String "."
             (String (digit_char (h / 10 mod 10))
                (String (digit_char (h mod 10)) EmptyString))))).

(** What [strtof] finds in a text before it rounds: the sign, the digits
    as an integer, the power of ten and the rest of the text; [None] when
    there is no digit. *)
Definition strtof_parts (nptr : string) : option (bool * Z * Z * string) :=
  let s1 := skip_space nptr in
  let '(neg, s2) := read_sign s1 in
  let '(ip, ni, s3) := read_digits 0 0 s2 in
  let '(mant, nf, s4) :=
    match s3 with
    | String "." r => read_digits ip 0 r
    | _ => (ip, 0, s3)
    end in
  if ni + nf =? 0 then None
  else
    let '(e, s5) := read_exponent s4 in
    Some (neg, mant, e - nf, s5).

(** [%03.2f] prints the float nearest to [h] hundredths as the decimal
    text of [h] hundredths, in four to six characters, and in that text
    [strtof] finds [h] hundredths and nothing more. *)
Definition prints_and_parses (h : Z) : bool :=
  String.eqb (format_03_2f (of_hundredths h)) (fixed2 h)
  && (4 <=? String.length (fixed2 h))%nat
  && (String.length (fixed2 h) <=? 6)%nat
  && match strtof_parts (fixed2 h) with
     | Some (neg, mant, dexp, rest) =>
         negb neg && (mant =? h) && (dexp =? -2) && String.eqb rest ""
     | None => false
     end.

(** [p] holds of the [fuel] integers from [h] on. *)
Fixpoint all_from (fuel : nat) (h : Z) (p : Z -> bool) : bool :=
  match fuel with
  | O => true
  | S k => p h && all_from k (h + 1) p
  end.

(** Text made of decimal digits, points, signs, white space and the
    separator [;] only: no letter, so no exponent, no hexadecimal constant
    and no spelling of infinity or NaN. *)
Definition decimal_char (c : ascii) : bool :=
  isdigit c || isspace c
  || Ascii.eqb c "." || Ascii.eqb c ";" || Ascii.eqb c "+" || Ascii.eqb c "-".

Fixpoint decimal_text (s : string) : bool :=
  match s with
  | EmptyString => true
  | String c r => decimal_char c && decimal_text r
  end.

(** The events that an operation has added to the log, given the log
    before and the log after. *)
Definition added (before after : list port_event) : list port_event :=
  skipn (List.length before) after.

(** * Properties *)

Local Open Scope list_scope.

(** ** The conversion [%03.2f]

    A number printed with two decimals takes at least four characters, so
    the field width 3 never adds a zero. *)

Lemma decimal_nonempty (n : Z) : (1 <= String.length (decimal n))%nat.
Proof.
  unfold decimal, DecimalString.NilZero.string_of_uint.
  destruct (N.to_uint (Z.to_N n)); cbn; lia.
Qed.

Lemma string_length_app (s t : string) :
  String.length (s ++ t)%string = (String.length s + String.length t)%nat.
Proof. induction s as [|c s IH]; cbn; [reflexivity|now rewrite IH]. Qed.

Lemma fixed2_length (h : Z) : (4 <= String.length (fixed2 h))%nat.
Proof.
  unfold fixed2. rewrite string_length_app. cbn [String.length].
  pose proof (decimal_nonempty (h / 100)). lia.
Qed.

Lemma pad_zero_wide (width : nat) (s : string) :
  (width <= String.length s)%nat -> pad_zero width s = s.
Proof.
  intros H. unfold pad_zero.
  replace (width - String.length s)%nat with 0%nat by lia. reflexivity.
Qed.

Lemma format_03_2f_unpadded (neg : bool) (m : positive) (e : Z) :
  format_03_2f (S754_finite neg m e)
  = (sign_string neg ++ fixed2 (hundredths m e))%string.
Proof.
  unfold format_03_2f. rewrite pad_zero_wide; [reflexivity|].
  pose proof (fixed2_length (hundredths m e)). lia.
Qed.

Example format_45_50 : format_03_2f deg_45_50 = "45.50"%string.
Proof. reflexivity. Qed.

Example format_180 : format_03_2f (of_Z 180) = "180.00"%string.
Proof. reflexivity. Qed.

(** ** The transaction *)

Lemma to_size_t_range (n : Z) : 0 <= to_size_t n < 2 ^ SIZE_WIDTH.
Proof. unfold to_size_t. apply Z.mod_pos_bound. reflexivity. Qed.

Lemma size_t_never_negative (n : Z) : (to_size_t n <? 0) = false.
Proof. apply Z.ltb_ge. apply to_size_t_range. Qed.

Lemma to_size_t_small (n : Z) : 0 <= n < 2 ^ SIZE_WIDTH -> to_size_t n = n.
Proof. intros H. unfold to_size_t. apply Z.mod_small. exact H. Qed.

Lemma to_size_t_negative (n : Z) :
  - 2 ^ 31 <= n < 0 -> to_size_t n = 2 ^ SIZE_WIDTH + n.
Proof.
  intros H. unfold to_size_t.
  symmetry. apply (Z.mod_unique_pos _ _ (-1)).
  - unfold SIZE_WIDTH. change (2 ^ 64) with 18446744073709551616.
    change (2 ^ 31) with 2147483648 in H. lia.
  - ring.
Qed.

Lemma sent_reads (cmdstr : option string) (p : hamlib_port) :
  reads (sent cmdstr p) = reads p /\ on_read (sent cmdstr p) = on_read p.
Proof. destruct cmdstr; split; reflexivity. Qed.

Lemma received_sent (cmdstr : option string) (p : hamlib_port) :
  received (sent cmdstr p) = received p.
Proof. destruct cmdstr; reflexivity. Qed.

Section OnePass.

Variables (fuel : nat) (d : option reply_buf) (len k : Z) (rot : ROT).

Lemma loop_write_failed (cmd : string) :
  write_status (Some cmd) (rotport rot) <> RIG_OK ->
  transaction_loop (S fuel) (Some cmd) d len k rot
  = Some (write_status (Some cmd) (rotport rot), d,
          with_port rot (sent (Some cmd) (rotport rot))).
Proof.
  intros H. apply Z.eqb_neq in H. cbn [write_status] in *.
  cbn [transaction_loop]. unfold bind, on_port, ret. cbn.
  rewrite H. reflexivity.
Qed.

Lemma loop_no_reply (cmdstr : option string) :
  write_status cmdstr (rotport rot) = RIG_OK ->
  transaction_loop (S fuel) cmdstr None len k rot
  = Some (RIG_OK, None, with_port rot (sent cmdstr (rotport rot))).
Proof.
  intros H. destruct cmdstr as [cmd|]; cbn [write_status] in H;
    cbn [transaction_loop]; unfold bind, on_port, ret; cbn.
  - rewrite H. reflexivity.
  - reflexivity.
Qed.

Lemma loop_reply (cmdstr : option string) (b : reply_buf) :
  write_status cmdstr (rotport rot) = RIG_OK ->
  transaction_loop (S fuel) cmdstr (Some b) len k rot
  = Some (RIG_OK, Some (received (rotport rot)),
          with_port rot (snd (read_string (len + 1) (sent cmdstr (rotport rot))))).
Proof.
  intros H. unfold received.
  destruct cmdstr as [cmd|]; cbn [write_status] in H;
    cbn [transaction_loop]; unfold bind, on_port, ret;
    cbn -[to_size_t Z.add]; try rewrite H; cbn -[to_size_t Z.add];
    destruct (on_read (rotport rot) (reads (rotport rot))) as [n bytes];
    cbn -[to_size_t Z.add]; rewrite size_t_never_negative; reflexivity.
Qed.

End OnePass.

(** One pass is all that the loop ever makes: the result does not depend
    on the fuel left, and the transaction always returns. *)
Lemma loop_fuel_irrelevant (f1 f2 : nat) (cmdstr : option string)
    (d : option reply_buf) (len k : Z) (rot : ROT) :
  transaction_loop (S f1) cmdstr d len k rot
  = transaction_loop (S f2) cmdstr d len k rot.
Proof.
  destruct (Z.eq_dec (write_status cmdstr (rotport rot)) RIG_OK) as [H|H].
  - destruct d as [b|].
    + now rewrite !loop_reply.
    + now rewrite !loop_no_reply.
  - destruct cmdstr as [cmd|]; [|now elim H].
    now rewrite !loop_write_failed.
Qed.

Lemma transaction_write_failed (cmd : string) (d : option reply_buf)
    (len : Z) (rot : ROT) :
  write_status (Some cmd) (rotport rot) <> RIG_OK ->
  hambits_transaction (Some cmd) d len rot
  = Some (write_status (Some cmd) (rotport rot), d,
          with_port rot (sent (Some cmd) (rotport rot))).
Proof.
  intros H. unfold hambits_transaction, bind, get_retry.
  now apply loop_write_failed.
Qed.

Lemma transaction_no_reply (cmdstr : option string) (len : Z) (rot : ROT) :
  write_status cmdstr (rotport rot) = RIG_OK ->
  hambits_transaction cmdstr None len rot
  = Some (RIG_OK, None, with_port rot (sent cmdstr (rotport rot))).
Proof.
  intros H. unfold hambits_transaction, bind, get_retry.
  now apply loop_no_reply.
Qed.

Lemma transaction_reply (cmdstr : option string) (b : reply_buf)
    (len : Z) (rot : ROT) :
  write_status cmdstr (rotport rot) = RIG_OK ->
  hambits_transaction cmdstr (Some b) len rot
  = Some (RIG_OK, Some (received (rotport rot)),
          with_port rot (snd (read_string (len + 1) (sent cmdstr (rotport rot))))).
Proof.
  intros H. unfold hambits_transaction, bind, get_retry.
  now apply loop_reply.
Qed.

(** The transaction in closed form. *)
Lemma hambits_transaction_one_pass (cmdstr : option string)
    (d : option reply_buf) (len : Z) (rot : ROT) :
  hambits_transaction cmdstr d len rot
  = Some (write_status cmdstr (rotport rot),
          buffer_after cmdstr d (rotport rot),
          with_port rot (port_after cmdstr d len (rotport rot))).
Proof.
  unfold buffer_after, port_after.
  destruct (Z.eqb_spec (write_status cmdstr (rotport rot)) RIG_OK) as [H|H].
  - destruct d as [b|].
    + rewrite transaction_reply by exact H. now rewrite H.
    + rewrite transaction_no_reply by exact H. now rewrite H.
  - destruct cmdstr as [cmd|]; [|now elim H].
    rewrite transaction_write_failed by exact H. now destruct d.
Qed.

Lemma hambits_transaction_returns (cmdstr : option string)
    (d : option reply_buf) (len : Z) (rot : ROT) :
  exists r, hambits_transaction cmdstr d len rot = Some r.
Proof. rewrite hambits_transaction_one_pass. eauto. Qed.

(** ** The operations in closed form *)

Lemma hambits_set_position_run (a e : float) (g : stack_garbage) (rot : ROT) :
  hambits_set_position a e g rot
  = Some ((if accepted (contents (buffer_after (Some (set_position_command a e))
                                    (Some (uninitialized g)) (rotport rot))
                                 (uninitialized g))
           then RIG_OK else RIG_EINVAL),
          with_port (with_target rot a e)
            (port_after (Some (set_position_command a e))
               (Some (uninitialized g)) 2 (rotport rot))).
Proof.
  unfold hambits_set_position, set_target, get_priv, set_priv.
  unfold bind at 1 2 3. cbv beta iota.
  unfold bind. rewrite hambits_transaction_one_pass.
  cbn [rotport priv with_port with_target]. unfold accepted.
  destruct (0 <? _); cbn [andb]; [|reflexivity].
  destruct (strstr _ _); reflexivity.
Qed.

Lemma hambits_get_position_run (az0 el0 : float) (g : stack_garbage) (rot : ROT) :
  hambits_get_position az0 el0 g rot
  = let b := contents (buffer_after (Some "getpos;") (Some (uninitialized g))
                         (rotport rot)) (uninitialized g) in
    let rot' := with_port rot (port_after (Some "getpos;")
                                 (Some (uninitialized g)) 15 (rotport rot)) in
    if 8 <? data_len b
    then Some (RIG_OK, parsed_az (data b), parsed_el (data b), rot')
    else Some (RIG_EINVAL, az0, el0, rot').
Proof.
  unfold hambits_get_position, bind. rewrite hambits_transaction_one_pass.
  cbv zeta. unfold parsed_az, parsed_el.
  destruct (8 <? _); [|reflexivity].
  destruct (strtof _) as [x pEnd]. reflexivity.
Qed.

Lemma hambits_stop_run (g : stack_garbage) (rot : ROT) :
  hambits_stop g rot
  = let rot1 := with_port rot (sent (Some "stop;") (rotport rot)) in
    if write_status (Some "stop;") (rotport rot) =? RIG_OK then
      match hambits_get_position (g_az g) (g_el g) g rot1 with
      | Some (status, a, e, rot2) =>
          if status =? RIG_OK then Some (RIG_OK, with_position rot2 a e)
          else Some (RIG_EINVAL, rot2)
      | None => None
      end
    else Some (RIG_EINVAL, rot1).
Proof.
  unfold hambits_stop. unfold bind at 1.
  rewrite hambits_transaction_one_pass. cbv zeta.
  cbn [buffer_after port_after].
  destruct (write_status _ _ =? RIG_OK); cbn [negb]; [|reflexivity].
  unfold bind at 1.
  destruct (hambits_get_position _ _ _ _) as [[[[status a] e] rot2]|];
    [|reflexivity].
  destruct (status =? RIG_OK); reflexivity.
Qed.

(** ** Claims about the transaction *)

(** C8.  When a command is given and [write_block] fails, the transaction
    returns at once with the error that the port reported (for a failed
    write, [-RIG_EIO]): the port has been flushed once and written to once,
    nothing has been read and the caller's buffer is untouched.  When no
    reply is wanted, the transaction returns [RIG_OK] right after the write.
    A transaction with neither a command nor a reply buffer returns
    [RIG_OK] after the flush alone. *)
Theorem transaction_write_failure_and_no_reply
    (cmd : string) (d : option reply_buf) (len : Z) (rot : ROT) :
  (on_write (rotport rot) (writes (rotport rot)) <> RIG_OK ->
   exists rot',
     hambits_transaction (Some cmd) d len rot
     = Some (on_write (rotport rot) (writes (rotport rot)), d, rot')
     /\ priv rot' = priv rot
     /\ log (rotport rot') = log (rotport rot) ++ [Flush; Write cmd]
     /\ writes (rotport rot') = S (writes (rotport rot))
     /\ reads (rotport rot') = reads (rotport rot))
  /\ (on_write (rotport rot) (writes (rotport rot)) = RIG_OK ->
      exists rot',
        hambits_transaction (Some cmd) None len rot = Some (RIG_OK, None, rot')
        /\ priv rot' = priv rot
        /\ log (rotport rot') = log (rotport rot) ++ [Flush; Write cmd]
        /\ reads (rotport rot') = reads (rotport rot))
  /\ (exists rot',
        hambits_transaction None None len rot = Some (RIG_OK, None, rot')
        /\ priv rot' = priv rot
        /\ log (rotport rot') = log (rotport rot) ++ [Flush]
        /\ writes (rotport rot') = writes (rotport rot)
        /\ reads (rotport rot') = reads (rotport rot)).
Proof.
  repeat split.
  - intros H. eexists. split.
    + now apply transaction_write_failed.
    + cbn. rewrite <- app_assoc. repeat split.
  - intros H. eexists. split.
    + now apply transaction_no_reply.
    + cbn. rewrite <- app_assoc. repeat split.
  - eexists. split.
    + now apply transaction_no_reply.
    + cbn. repeat split.
Qed.

Lemma transaction_write_failure_and_no_reply_witness :
  on_write (rotport (fresh_rot [- RIG_EIO] [])) 0 <> RIG_OK
  /\ exists rot',
       hambits_transaction (Some "getpos;") (Some (uninitialized some_garbage))
         15 (fresh_rot [- RIG_EIO] [])
       = Some (- RIG_EIO, Some (uninitialized some_garbage), rot')
       /\ priv rot' = priv (fresh_rot [- RIG_EIO] [])
       /\ log (rotport rot') = [Flush; Write "getpos;"]
       /\ writes (rotport rot') = 1%nat
       /\ reads (rotport rot') = 0%nat.
Proof.
  split.
  - discriminate.
  - apply (proj1 (transaction_write_failure_and_no_reply "getpos;"
                    (Some (uninitialized some_garbage)) 15
                    (fresh_rot [- RIG_EIO] []))).
    discriminate.
Defined.

(** C9.  [*data_len] is a [size_t], so the test [*data_len < 0] is false
    for every value that [read_string] returns.  Hence a transaction with a
    reply buffer whose write went through (or that had nothing to write)
    returns [RIG_OK] after exactly one read, with whatever that read left
    in the buffer; and no transaction returns from the [RIG_ETIMEOUT]
    branch: it always returns, and with [RIG_OK] or the failed write's
    error. *)
Theorem transaction_never_retries
    (cmdstr : option string) (b : reply_buf) (len : Z) (rot : ROT) :
  write_status cmdstr (rotport rot) = RIG_OK ->
  (forall n : Z, (to_size_t n <? 0) = false)
  /\ (exists rot',
        hambits_transaction cmdstr (Some b) len rot
        = Some (RIG_OK,
                Some {| data := snd (on_read (rotport rot) (reads (rotport rot)));
                        data_len :=
                          to_size_t (fst (on_read (rotport rot) (reads (rotport rot)))) |},
                rot')
        /\ reads (rotport rot') = S (reads (rotport rot))
        /\ log (rotport rot')
           = log (sent cmdstr (rotport rot)) ++ [Read (len + 1)])
  /\ (forall (fuel : nat) (c : option string) (d : option reply_buf)
             (l k : Z) (r : ROT),
        exists d' r',
          transaction_loop (S fuel) c d l k r
          = Some (write_status c (rotport r), d', r')).
Proof.
  intros H. split; [exact size_t_never_negative|]. split.
  - eexists. split.
    + now apply transaction_reply.
    + cbn. rewrite (proj1 (sent_reads cmdstr (rotport rot))). split; reflexivity.
  - intros fuel c d l k r.
    destruct (Z.eq_dec (write_status c (rotport r)) RIG_OK) as [E|E].
    + destruct d as [b'|].
      * rewrite loop_reply by exact E. rewrite E. eauto.
      * rewrite loop_no_reply by exact E. rewrite E. eauto.
    + destruct c as [cmd|]; [|now elim E].
      rewrite loop_write_failed by exact E. eauto.
Qed.

Lemma transaction_never_retries_witness :
  write_status (Some "getpos;") (rotport (fresh_rot [] [timed_out])) = RIG_OK
  /\ exists rot',
       hambits_transaction (Some "getpos;") (Some (uninitialized some_garbage))
         15 (fresh_rot [] [timed_out])
       = Some (RIG_OK,
               Some {| data := ""; data_len := to_size_t (- RIG_ETIMEOUT) |},
               rot')
       /\ reads (rotport rot') = 1%nat
       /\ log (rotport rot') = [Flush; Write "getpos;"; Read 16].
Proof.
  split.
  - reflexivity.
  - apply (proj1 (proj2 (transaction_never_retries (Some "getpos;")
                           (uninitialized some_garbage) 15
                           (fresh_rot [] [timed_out]) eq_refl))).
Defined.

(** C1 (the code at the failing input).  With the retry count 5 of
    [hambits_caps]: when the first four reads time out and the fifth would
    deliver a reply, and also when every read times out, the transaction
    returns [RIG_OK] after the first read.  The buffer is empty, the length
    is the timeout code converted to [size_t], and only one read was made. *)
Theorem transaction_on_timeouts :
  let late := fresh_rot [] [timed_out; timed_out; timed_out; timed_out;
                            reply "045.50;090.25;"] in
  let never := fresh_rot [] [timed_out; timed_out; timed_out; timed_out;
                             timed_out] in
  let empty := {| data := ""; data_len := 18446744073709551611 |} in
  let once (rot : ROT) :=
    with_port rot
      {| retry := 5;
         on_write := on_write (rotport rot); on_read := on_read (rotport rot);
         writes := 1; reads := 1;
         log := [Flush; Write "getpos;"; Read 16] |} in
  hambits_transaction (Some "getpos;") (Some (uninitialized some_garbage)) 15 late
  = Some (RIG_OK, Some empty, once late)
  /\ hambits_transaction (Some "getpos;") (Some (uninitialized some_garbage)) 15 never
     = Some (RIG_OK, Some empty, once never)
  /\ RIG_OK <> RIG_ETIMEOUT
  /\ data empty <> snd (reply "045.50;090.25;").
Proof.
  cbv zeta. repeat split; try discriminate.
Qed.

(** ** Commands on the wire *)

Lemma commands_app (l1 l2 : list port_event) :
  commands (l1 ++ l2) = commands l1 ++ commands l2.
Proof.
  induction l1 as [|ev l1 IH]; [reflexivity|].
  destruct ev; cbn [commands app]; now rewrite IH.
Qed.

Lemma commands_port_after (cmd : string) (d : option reply_buf) (len : Z)
    (p : hamlib_port) :
  commands (log (port_after (Some cmd) d len p)) = commands (log p) ++ [cmd].
Proof.
  unfold port_after.
  destruct d as [b|]; [destruct (_ =? _)|]; cbn [sent read_string write_block
    serial_flush snd log]; rewrite !commands_app; cbn [commands];
    rewrite <- ?app_assoc, ?app_nil_r; reflexivity.
Qed.

Lemma park_command : set_position_command (of_Z 0) (of_Z 0) = "setaz0.00;setel0.00;".
Proof. reflexivity. Qed.

(** ** Claims about the operations *)

(** C2.  For an azimuth in [0, 360] and an elevation in [0, 180], when the
    command is written and the device replies [11], [hambits_set_position]
    returns [RIG_OK] and the target position is the requested one.  When the
    buffer holds [10], [01], [00] or nothing after the read, whatever count
    the read returned, it returns [RIG_EINVAL]. *)
Theorem set_position_reply (a e : float) (g : stack_garbage) (rot : ROT) :
  leb caps_min_az a = true -> leb a caps_max_az = true ->
  leb caps_min_el e = true -> leb e caps_max_el = true ->
  on_write (rotport rot) (writes (rotport rot)) = RIG_OK ->
  (on_read (rotport rot) (reads (rotport rot)) = reply "11" ->
   exists rot',
     hambits_set_position a e g rot = Some (RIG_OK, rot')
     /\ target rot' = (a, e))
  /\ (forall (n : Z) (s : string),
        In s ["10"; "01"; "00"; ""]%string ->
        on_read (rotport rot) (reads (rotport rot)) = (n, s) ->
        exists rot', hambits_set_position a e g rot = Some (RIG_EINVAL, rot')).
Proof.
  intros _ _ _ _ Hw. split.
  - intros Hr. rewrite hambits_set_position_run.
    unfold buffer_after, write_status, received. rewrite Hw, Hr.
    eexists. split; reflexivity.
  - intros n s Hs Hr. rewrite hambits_set_position_run.
    unfold buffer_after, write_status, received. rewrite Hw, Hr.
    change (RIG_OK =? RIG_OK) with true. cbn [contents snd fst].
    unfold accepted. cbn [data data_len].
    assert (strstr (until_nul s) "11" = None) as ->.
    { cbn [In] in Hs.
      destruct Hs as [<-|[<-|[<-|[<-|[]]]]]; reflexivity. }
    rewrite andb_false_r. eauto.
Qed.

Lemma set_position_reply_witness :
  exists rot',
    hambits_set_position (of_Z 90) (of_Z 45) some_garbage
      (fresh_rot [] [reply "11"])
    = Some (RIG_OK, rot')
    /\ target rot' = (of_Z 90, of_Z 45).
Proof.
  apply (proj1 (set_position_reply (of_Z 90) (of_Z 45) some_garbage
                  (fresh_rot [] [reply "11"])
                  eq_refl eq_refl eq_refl eq_refl eq_refl)).
  reflexivity.
Defined.

(** C3 (the code on two calls of park).  Two calls of [hambits_park] in
    succession write the same command both times, and that command is
    [setaz0.00;setel0.00;]: the field width 3 of [%03.2f] counts the whole
    number, point and decimals included, so no zero is added on the left.
    It is not [setaz000.00;setel000.00;], and no finite value is ever
    printed with zeros added on the left. *)
Theorem park_twice_command (g1 g2 : stack_garbage) (rot : ROT) :
  exists rv1 rot1 rv2 rot2,
    hambits_park g1 rot = Some (rv1, rot1)
    /\ hambits_park g2 rot1 = Some (rv2, rot2)
    /\ commands (log (rotport rot2))
       = commands (log (rotport rot))
         ++ ["setaz0.00;setel0.00;"; "setaz0.00;setel0.00;"]%string
    /\ "setaz0.00;setel0.00;"%string <> "setaz000.00;setel000.00;"%string
    /\ (forall (neg : bool) (m : positive) (e : Z),
          format_03_2f (S754_finite neg m e)
          = (sign_string neg ++ fixed2 (hundredths m e))%string).
Proof.
  unfold hambits_park. do 4 eexists.
  split; [apply hambits_set_position_run|].
  split; [apply hambits_set_position_run|].
  split; [|split; [discriminate|exact format_03_2f_unpadded]].
  cbn [rotport with_port]. rewrite !commands_port_after, park_command.
  cbn [with_target rotport]. now rewrite <- app_assoc.
Qed.



(** C6.  [hambits_stop] first makes the transaction that writes [stop;]
    and reads nothing.  When that transaction does not return [RIG_OK],
    stop returns [RIG_EINVAL].  Otherwise it calls [hambits_get_position]:
    when that returns [RIG_OK] with a position, stop returns [RIG_OK] and
    both the current and the target position are that position; when it
    returns anything else, stop returns [RIG_EINVAL]. *)
Theorem stop_outcome (g : stack_garbage) (rot : ROT)
    (rv1 : Z) (d1 : option reply_buf) (rot1 : ROT) :
  hambits_transaction (Some "stop;"%string) None 0 rot = Some (rv1, d1, rot1) ->
  log (rotport rot1) = log (rotport rot) ++ [Flush; Write "stop;"]
  /\ (rv1 <> RIG_OK -> hambits_stop g rot = Some (RIG_EINVAL, rot1))
  /\ (rv1 = RIG_OK ->
      forall (status : Z) (a e : float) (rot2 : ROT),
        hambits_get_position (g_az g) (g_el g) g rot1
        = Some (status, a, e, rot2) ->
        (status = RIG_OK ->
         exists rot3,
           hambits_stop g rot = Some (RIG_OK, rot3)
           /\ current rot3 = (a, e)
           /\ target rot3 = (a, e)
           /\ rotport rot3 = rotport rot2)
        /\ (status <> RIG_OK -> hambits_stop g rot = Some (RIG_EINVAL, rot2))).
Proof.
  rewrite hambits_transaction_one_pass. cbn [port_after buffer_after].
  rewrite hambits_stop_run. cbv zeta.
  remember (with_port rot (sent (Some "stop;"%string) (rotport rot))) as r1 eqn:E1.
  remember (write_status (Some "stop;"%string) (rotport rot)) as w eqn:Ew.
  intros H. injection H as <- _ <-.
  split; [rewrite E1; cbn; now rewrite <- app_assoc|].
  split.
  - intros E. apply Z.eqb_neq in E. now rewrite E.
  - intros E status a e rot2 Hg. rewrite E, Hg.
    change (RIG_OK =? RIG_OK) with true. cbv iota. split.
    + intros ->. change (RIG_OK =? RIG_OK) with true. cbv iota.
      eexists. repeat split.
    + intros N. apply Z.eqb_neq in N. now rewrite N.
Qed.

Lemma stop_outcome_witness :
  exists rot3,
    hambits_stop some_garbage
      (fresh_rot [] [reply ("010.00;020.00;" ++ newline)%string])
    = Some (RIG_OK, rot3)
    /\ current rot3 = (of_Z 10, of_Z 20)
    /\ target rot3 = (of_Z 10, of_Z 20)
    /\ rotport rot3
       = {| retry := caps_retry;
            on_write := script [] RIG_OK;
            on_read := script [reply ("010.00;020.00;" ++ newline)%string] timed_out;
            writes := 2; reads := 1;
            log := [Flush; Write "stop;"; Flush; Write "getpos;"; Read 16] |}.
Proof.
  refine (proj1 (proj2 (proj2 (stop_outcome some_garbage
            (fresh_rot [] [reply ("010.00;020.00;" ++ newline)%string])
            RIG_OK None _ eq_refl)) eq_refl RIG_OK (of_Z 10) (of_Z 20) _ eq_refl)
          eq_refl).
Defined.

(** C7.  [hambits_move] is [hambits_set_position] with one axis at its
    current target and the other at an end of its range: up gives
    elevation 180, down elevation 0, counter-clockwise azimuth 0, clockwise
    azimuth 360, so that a move upwards writes the command of a set position
    to (target azimuth, 180).  Any other direction returns [-RIG_EINVAL]
    and touches nothing.  The speed has no influence. *)
Theorem move_delegates (speed : Z) (g : stack_garbage) (rot : ROT) :
  hambits_move ROT_MOVE_UP speed g rot
  = hambits_set_position (target_az (priv rot)) (of_Z 180) g rot
  /\ hambits_move ROT_MOVE_DOWN speed g rot
     = hambits_set_position (target_az (priv rot)) (of_Z 0) g rot
  /\ hambits_move ROT_MOVE_CCW speed g rot
     = hambits_set_position (of_Z 0) (target_el (priv rot)) g rot
  /\ hambits_move ROT_MOVE_CW speed g rot
     = hambits_set_position (of_Z 360) (target_el (priv rot)) g rot
  /\ (exists rv rot',
        hambits_move ROT_MOVE_UP speed g rot = Some (rv, rot')
        /\ commands (log (rotport rot'))
           = commands (log (rotport rot))
             ++ [set_position_command (target_az (priv rot)) (of_Z 180)])
  /\ (forall direction : Z,
        ~ In direction [ROT_MOVE_UP; ROT_MOVE_DOWN; ROT_MOVE_CCW; ROT_MOVE_CW] ->
        hambits_move direction speed g rot = Some (- RIG_EINVAL, rot))
  /\ (forall direction speed' : Z,
        hambits_move direction speed g rot = hambits_move direction speed' g rot).
Proof.
  repeat split.
  - do 2 eexists. split.
    + change (hambits_move ROT_MOVE_UP speed g rot)
        with (hambits_set_position (target_az (priv rot)) (of_Z 180) g rot).
      apply hambits_set_position_run.
    + cbn [rotport with_port]. now rewrite commands_port_after.
  - intros direction H. cbn [In] in H.
    unfold hambits_move, bind, get_priv.
    destruct (Z.eqb_spec direction ROT_MOVE_UP) as [E|_];
      [exfalso; apply H; rewrite E; auto 6|].
    destruct (Z.eqb_spec direction ROT_MOVE_DOWN) as [E|_];
      [exfalso; apply H; rewrite E; auto 6|].
    destruct (Z.eqb_spec direction ROT_MOVE_CCW) as [E|_];
      [exfalso; apply H; rewrite E; auto 6|].
    destruct (Z.eqb_spec direction ROT_MOVE_CW) as [E|_];
      [exfalso; apply H; rewrite E; auto 6|].
    reflexivity.
Qed.

Lemma move_delegates_witness :
  ~ In 3 [ROT_MOVE_UP; ROT_MOVE_DOWN; ROT_MOVE_CCW; ROT_MOVE_CW]
  /\ hambits_move 3 1 some_garbage (fresh_rot [] [])
     = Some (- RIG_EINVAL, fresh_rot [] []).
Proof.
  assert (~ In 3 [ROT_MOVE_UP; ROT_MOVE_DOWN; ROT_MOVE_CCW; ROT_MOVE_CW]) as H.
  { cbn. intros [E|[E|[E|[E|[]]]]]; discriminate E. }
  split.
  - exact H.
  - exact (proj1 (proj2 (proj2 (proj2 (proj2 (proj2
             (move_delegates 1 some_garbage (fresh_rot [] []))))))) 3 H).
Defined.

(** C10.  For every value of its argument, [hambits_reset] is
    [hambits_park], which is [hambits_set_position] to (0, 0): it returns
    what park returns, leaves the state that park leaves, and writes the
    command of a set position to (0, 0). *)
Theorem reset_is_park (reset : Z) (g : stack_garbage) (rot : ROT) :
  hambits_reset reset g rot = hambits_park g rot
  /\ hambits_park g rot = hambits_set_position (of_Z 0) (of_Z 0) g rot
  /\ exists rv rot',
       hambits_reset reset g rot = Some (rv, rot')
       /\ target rot' = (of_Z 0, of_Z 0)
       /\ commands (log (rotport rot'))
          = commands (log (rotport rot))
            ++ [set_position_command (of_Z 0) (of_Z 0)].
Proof.
  split; [reflexivity|]. split; [reflexivity|].
  unfold hambits_reset, hambits_park. do 2 eexists. split.
  - apply hambits_set_position_run.
  - split; [reflexivity|].
    cbn [rotport with_port]. now rewrite commands_port_after.
Qed.

(** ** The driver state *)

(** C4, as the claim states it, fails: a set position whose reply is
    rejected has already overwritten the target. *)
Lemma rejected_set_position_moves_target :
  ~ (forall (a e : float) (g : stack_garbage) (rot : ROT) (rv : Z) (rot' : ROT),
       hambits_set_position a e g rot = Some (rv, rot') ->
       rv <> RIG_OK ->
       target rot' = target rot).
Proof.
  intros H.
  assert (RIG_EINVAL <> RIG_OK) as N by discriminate.
  pose proof (H (of_Z 10) (of_Z 20) some_garbage (fresh_rot [] [reply "00"])
                RIG_EINVAL _ eq_refl N) as E.
  discriminate E.
Qed.

(** C4, amended.  [hambits_set_position] stores the requested position as
    the target before the transaction and never takes it back: after every
    call, whatever the outcome, the target is the requested position and
    the current position is as before.  [hambits_get_position] leaves the
    driver state alone.  [hambits_stop] either returns [RIG_OK], and then
    its write of [stop;] went through and its [hambits_get_position], called
    on the rotator as that write left it, returned [RIG_OK] with a position
    that is now both the current and the target position; or it returns
    [RIG_EINVAL] and leaves the driver state as it was, and then the write
    failed or that [hambits_get_position] did not return [RIG_OK].
    [hambits_park], [hambits_reset] and [hambits_move] leave the current
    position as it was. *)
Theorem driver_state_updates (g : stack_garbage) (rot : ROT) :
  (forall a e : float,
     exists rv rot',
       hambits_set_position a e g rot = Some (rv, rot')
       /\ target rot' = (a, e)
       /\ current rot' = current rot)
  /\ (forall az0 el0 : float,
        exists r rot',
          hambits_get_position az0 el0 g rot = Some (r, rot')
          /\ priv rot' = priv rot)
  /\ (exists rv rot',
        hambits_stop g rot = Some (rv, rot')
        /\ ((rv = RIG_OK
             /\ on_write (rotport rot) (writes (rotport rot)) = RIG_OK
             /\ exists rot2 a e,
                  hambits_get_position (g_az g) (g_el g) g
                    (with_port rot (sent (Some "stop;"%string) (rotport rot)))
                  = Some (RIG_OK, a, e, rot2)
                  /\ current rot' = (a, e)
                  /\ target rot' = (a, e)
                  /\ rotport rot' = rotport rot2)
            \/ (rv = RIG_EINVAL
                /\ priv rot' = priv rot
                /\ (on_write (rotport rot) (writes (rotport rot)) <> RIG_OK
                    \/ exists status a e rot2,
                         hambits_get_position (g_az g) (g_el g) g
                           (with_port rot
                              (sent (Some "stop;"%string) (rotport rot)))
                         = Some (status, a, e, rot2)
                         /\ status <> RIG_OK
                         /\ rotport rot' = rotport rot2))))
  /\ (exists rv rot',
        hambits_park g rot = Some (rv, rot') /\ current rot' = current rot)
  /\ (forall reset : Z,
        exists rv rot',
          hambits_reset reset g rot = Some (rv, rot')
          /\ current rot' = current rot)
  /\ (forall direction speed : Z,
        exists rv rot',
          hambits_move direction speed g rot = Some (rv, rot')
          /\ current rot' = current rot).
Proof.
  assert (forall a e : float,
            exists rv rot',
              hambits_set_position a e g rot = Some (rv, rot')
              /\ target rot' = (a, e)
              /\ current rot' = current rot) as Hset.
  { intros a e. rewrite hambits_set_position_run.
    do 2 eexists. repeat split. }
  split; [exact Hset|].
  split; [|split; [|split; [|split]]].
  4: { intros reset. destruct (Hset (of_Z 0) (of_Z 0)) as (rv & rot' & E & _ & C).
       now exists rv, rot'. }
  3: { destruct (Hset (of_Z 0) (of_Z 0)) as (rv & rot' & E & _ & C).
       now exists rv, rot'. }
  3: { intros direction speed. unfold hambits_move, bind, get_priv.
       repeat match goal with
              | |- context [if ?c then _ else _] => destruct c
              end;
         try (match goal with
              | |- context [hambits_set_position ?a ?e g rot] =>
                  destruct (Hset a e) as (rv & rot' & E & _ & C);
                  now exists rv, rot'
              end).
       do 2 eexists. split; reflexivity. }
  - intros az0 el0. rewrite hambits_get_position_run. cbv zeta.
    destruct (8 <? _); do 2 eexists; split; reflexivity.
  - rewrite hambits_stop_run. cbv zeta. unfold write_status.
    destruct (Z.eqb_spec (on_write (rotport rot) (writes (rotport rot))) RIG_OK)
      as [W|W].
    + destruct (hambits_get_position (g_az g) (g_el g) g
                  (with_port rot (sent (Some "stop;"%string) (rotport rot))))
        as [[[[status a] e] rot2]|] eqn:Hg.
      * destruct (Z.eqb_spec status RIG_OK) as [->|N].
        -- do 2 eexists. split; [reflexivity|]. left. split; [reflexivity|].
           split; [exact W|]. exists rot2, a, e. repeat split.
        -- do 2 eexists. split; [reflexivity|]. right. split; [reflexivity|].
           split.
           ++ rewrite hambits_get_position_run in Hg. cbv zeta in Hg.
              destruct (8 <? _); injection Hg as _ _ _ <-; reflexivity.
           ++ right. exists status, a, e, rot2. repeat split. exact N.
      * rewrite hambits_get_position_run in Hg. cbv zeta in Hg.
        destruct (8 <? _); discriminate Hg.
    + do 2 eexists. split; [reflexivity|]. right. split; [reflexivity|].
      split; [reflexivity|]. left. exact W.
Qed.

(** * Further properties *)

(** ** Reading numbers in front of a separator *)

Section BeforeSemicolon.

Variable r : string.

Let t : string := String ";" r.

Lemma skip_space_app (s : string) :
  skip_space (s ++ t) = (skip_space s ++ t)%string.
Proof.
  induction s as [|c s IH]; [reflexivity|].
  cbn [append skip_space]. now destruct (isspace c).
Qed.

Lemma read_sign_app (s : string) :
  read_sign (s ++ t) = (fst (read_sign s), (snd (read_sign s) ++ t)%string).
Proof.
  destruct s as [|c s]; [reflexivity|].
  destruct c as [[] [] [] [] [] [] [] []]; reflexivity.
Qed.

Lemma read_digits_app (s : string) (acc count : Z) :
  read_digits acc count (s ++ t)
  = (fst (read_digits acc count s),
     (snd (read_digits acc count s) ++ t)%string).
Proof.
  revert acc count. induction s as [|c s IH]; intros acc count;
    [reflexivity|].
  cbn [append read_digits]. destruct (isdigit c); [apply IH|reflexivity].
Qed.

Lemma read_fraction_app (ip : Z) (s : string) :
  match (s ++ t)%string with
  | String "." q => read_digits ip 0 q
  | _ => (ip, 0, (s ++ t)%string)
  end
  = (fst match s with
         | String "." q => read_digits ip 0 q
         | _ => (ip, 0, s)
         end,
     (snd match s with
          | String "." q => read_digits ip 0 q
          | _ => (ip, 0, s)
          end ++ t)%string).
Proof.
  destruct s as [|c s]; [reflexivity|].
  destruct c as [[] [] [] [] [] [] [] []]; cbn [append];
    try reflexivity; apply read_digits_app.
Qed.

Lemma read_exponent_app (s : string) :
  read_exponent (s ++ t)
  = (fst (read_exponent s), (snd (read_exponent s) ++ t)%string).
Proof.
  destruct s as [|c s]; [reflexivity|].
  cbn [append read_exponent].
  destruct (Ascii.eqb c "e" || Ascii.eqb c "E"); [|reflexivity].
  rewrite read_sign_app. destruct (read_sign s) as [neg s1]. cbn [fst snd].
  rewrite read_digits_app.
  destruct (read_digits 0 0 s1) as [[e n] s2]. cbn [fst snd].
  now destruct (n =? 0).
Qed.

(** What [strtof] reads of a text is not changed by a [;] and more text
    after it. *)
Lemma strtof_app (s : string) :
  strtof (s ++ t) = (fst (strtof s), (snd (strtof s) ++ t)%string).
Proof.
  unfold strtof. rewrite skip_space_app, read_sign_app.
  destruct (read_sign (skip_space s)) as [neg s2]. cbn [fst snd].
  rewrite read_digits_app.
  destruct (read_digits 0 0 s2) as [[ip ni] s3]. cbn [fst snd].
  rewrite read_fraction_app.
  destruct (match s3 with
            | String "." q => read_digits ip 0 q
            | _ => (ip, 0, s3)
            end) as [[mant nf] s4]. cbn [fst snd].
  destruct (ni + nf =? 0); [reflexivity|].
  rewrite read_exponent_app.
  now destruct (read_exponent s4) as [e s5].
Qed.

End BeforeSemicolon.

(** ** Positions on the wire *)

Lemma same_float_eq (x y : float) : same_float x y = true -> x = y.
Proof.
  destruct x as [a|a| |a m e], y as [b|b| |b n f]; cbn [same_float];
    try discriminate; try reflexivity.
  - intros H. apply Bool.eqb_prop in H. now subst.
  - intros H. apply Bool.eqb_prop in H. now subst.
  - intros H. apply andb_prop in H as [H He]. apply andb_prop in H as [Hs Hm].
    apply Bool.eqb_prop in Hs. apply Pos.eqb_eq in Hm. apply Z.eqb_eq in He.
    now subst.
Qed.

Lemma all_from_spec (p : Z -> bool) (fuel : nat) (h : Z) :
  all_from fuel h p = true ->
  forall k : Z, h <= k < h + Z.of_nat fuel -> p k = true.
Proof.
  revert h. induction fuel as [|fuel IH]; intros h H k Hk; [lia|].
  cbn [all_from] in H. apply andb_prop in H as [Hh Hrest].
  destruct (Z.eq_dec k h) as [->|N]; [exact Hh|].
  apply (IH (h + 1) Hrest). lia.
Qed.

Lemma strtof_by_parts (s : string) :
  strtof s
  = match strtof_parts s with
    | Some (neg, mant, dexp, rest) => (of_decimal neg mant dexp, rest)
    | None => (S754_zero false, s)
    end.
Proof.
  unfold strtof, strtof_parts.
  destruct (read_sign (skip_space s)) as [neg s2].
  destruct (read_digits 0 0 s2) as [[ip ni] s3].
  destruct (match s3 with
            | String "." q => read_digits ip 0 q
            | _ => (ip, 0, s3)
            end) as [[mant nf] s4].
  destruct (ni + nf =? 0); [reflexivity|].
  now destruct (read_exponent s4) as [e s5].
Qed.

Lemma digit_cases (d : Z) :
  0 <= d <= 9 ->
  In d [0; 1; 2; 3; 4; 5; 6; 7; 8; 9].
Proof. intros H. cbn [In]. lia. Qed.

Ltac each_digit d H :=
  apply digit_cases in H; cbn [In] in H;
  repeat (destruct H as [<-|H]; [reflexivity|]); destruct H.

Lemma skip_space_digit (d : Z) (rest : string) :
  0 <= d <= 9 ->
  skip_space (String (digit_char d) rest) = String (digit_char d) rest.
Proof. intros H. each_digit d H. Qed.

Lemma read_sign_digit (d : Z) (rest : string) :
  0 <= d <= 9 ->
  read_sign (String (digit_char d) rest) = (false, String (digit_char d) rest).
Proof. intros H. each_digit d H. Qed.

Lemma read_digits_digit (d acc count : Z) (rest : string) :
  0 <= d <= 9 ->
  read_digits acc count (String (digit_char d) rest)
  = read_digits (10 * acc + d) (count + 1) rest.
Proof. intros H. each_digit d H. Qed.

Lemma mod_10_digit (x : Z) : 0 <= x mod 10 <= 9.
Proof. pose proof (Z.mod_pos_bound x 10). lia. Qed.

(** A number below 100000 is the value of its five decimal digits. *)
Lemma five_digits (h : Z) :
  0 <= h <= 99999 ->
  10 * (10 * (10 * (10 * (10 * 0 + (h / 10000) mod 10) + (h / 1000) mod 10)
              + (h / 100) mod 10)
        + (h / 10) mod 10)
  + h mod 10 = h.
Proof.
  intros H.
  replace (h / 100) with (h / 10 / 10)
    by (rewrite Z.div_div by lia; reflexivity).
  replace (h / 1000) with (h / 10 / 10 / 10)
    by (rewrite !Z.div_div by lia; reflexivity).
  replace (h / 10000) with (h / 10 / 10 / 10 / 10)
    by (rewrite !Z.div_div by lia; reflexivity).
  pose proof (Z.div_mod h 10 ltac:(lia)) as E0.
  pose proof (Z.div_mod (h / 10) 10 ltac:(lia)) as E1.
  pose proof (Z.div_mod (h / 10 / 10) 10 ltac:(lia)) as E2.
  pose proof (Z.div_mod (h / 10 / 10 / 10) 10 ltac:(lia)) as E3.
  pose proof (mod_10_digit h) as B0.
  pose proof (mod_10_digit (h / 10)) as B1.
  pose proof (mod_10_digit (h / 10 / 10)) as B2.
  pose proof (mod_10_digit (h / 10 / 10 / 10)) as B3.
  assert (0 <= h / 10 / 10 / 10 / 10 < 10) as B4.
  { generalize dependent (h / 10 / 10 / 10 / 10).
    generalize dependent ((h / 10 / 10 / 10) mod 10).
    generalize dependent (h / 10 / 10 / 10).
    generalize dependent ((h / 10 / 10) mod 10).
    generalize dependent (h / 10 / 10).
    generalize dependent ((h / 10) mod 10).
    generalize dependent (h / 10).
    generalize dependent (h mod 10).
    intros. lia. }
  rewrite (Z.mod_small (h / 10 / 10 / 10 / 10) 10) by exact B4.
  generalize dependent (h / 10 / 10 / 10 / 10).
  generalize dependent ((h / 10 / 10 / 10) mod 10).
  generalize dependent (h / 10 / 10 / 10).
  generalize dependent ((h / 10 / 10) mod 10).
  generalize dependent (h / 10 / 10).
  generalize dependent ((h / 10) mod 10).
  generalize dependent (h / 10).
  generalize dependent (h mod 10).
  intros. lia.
Qed.

(** Every text [DDD.dd] is read back as the float nearest to its value. *)
Lemma strtof_wire (h : Z) :
  0 <= h <= 99999 ->
  strtof (wire_DDD_dd h) = (of_hundredths h, ""%string).
Proof.
  intros H. rewrite strtof_by_parts. unfold strtof_parts, wire_DDD_dd.
  assert (0 <= h / 10000 mod 10 <= 9) as D1 by apply mod_10_digit.
  assert (0 <= h / 1000 mod 10 <= 9) as D2 by apply mod_10_digit.
  assert (0 <= h / 100 mod 10 <= 9) as D3 by apply mod_10_digit.
  assert (0 <= h / 10 mod 10 <= 9) as D4 by apply mod_10_digit.
  assert (0 <= h mod 10 <= 9) as D5 by apply mod_10_digit.
  rewrite skip_space_digit, read_sign_digit by assumption.
  rewrite !read_digits_digit by assumption.
  change (read_digits ?acc ?n (String "." ?q)) with (acc, n, String "." q).
  cbv iota beta.
  rewrite !read_digits_digit by assumption.
  cbn [read_digits]. cbv iota beta.
  change (0 + 1 + 1 + 1 + (0 + 1 + 1) =? 0) with false.
  cbn [read_exponent]. cbv iota beta.
  change (0 - (0 + 1 + 1)) with (-2).
  unfold of_hundredths. f_equal. f_equal. now apply five_digits.
Qed.

Lemma prints_and_parses_spec (h : Z) :
  prints_and_parses h = true ->
  format_03_2f (of_hundredths h) = fixed2 h
  /\ (4 <= String.length (fixed2 h) <= 6)%nat
  /\ strtof (fixed2 h) = (of_hundredths h, ""%string).
Proof.
  unfold prints_and_parses. intros H.
  apply andb_prop in H as [H Hp]. apply andb_prop in H as [H Hu].
  apply andb_prop in H as [Hf Hl].
  apply String.eqb_eq in Hf. apply Nat.leb_le in Hl, Hu.
  split; [exact Hf|]. split; [lia|].
  rewrite strtof_by_parts.
  destruct (strtof_parts (fixed2 h)) as [[[[neg mant] dexp] rest]|];
    [|discriminate].
  apply andb_prop in Hp as [Hp Hr]. apply andb_prop in Hp as [Hp Hd].
  apply andb_prop in Hp as [Hn Hm].
  apply String.eqb_eq in Hr. apply Z.eqb_eq in Hd, Hm.
  destruct neg; [discriminate|]. now subst.
Qed.

(** Every position of the declared ranges that is a whole number of
    hundredths is printed by [%03.2f] as the decimal text of that number,
    in four to six characters, and read back by [strtof] as the same
    float. *)
Lemma strtof_format (h : Z) :
  0 <= h <= 36000 ->
  format_03_2f (of_hundredths h) = fixed2 h
  /\ (4 <= String.length (fixed2 h) <= 6)%nat
  /\ strtof (fixed2 h) = (of_hundredths h, ""%string).
Proof.
  intros H. apply prints_and_parses_spec.
  apply (all_from_spec prints_and_parses (Z.to_nat 36001) 0).
  - vm_compute. reflexivity.
  - change (Z.of_nat (Z.to_nat 36001)) with 36001. lia.
Qed.

(** The two numbers of a reply [A;E;...] whose fields [A] and [E] are read
    in full by [strtof]. *)
Lemma parsed_fields (fa fe rest : string) (a e : float) :
  strtof fa = (a, ""%string) ->
  strtof fe = (e, ""%string) ->
  parsed_az (fa ++ ";" ++ fe ++ ";" ++ rest)%string = a
  /\ parsed_el (fa ++ ";" ++ fe ++ ";" ++ rest)%string = e.
Proof.
  intros Ha He. unfold parsed_az, parsed_el.
  change (fa ++ ";" ++ fe ++ ";" ++ rest)%string
    with (fa ++ String ";" (fe ++ String ";" rest))%string.
  rewrite strtof_app, Ha. cbn [fst snd append advance].
  rewrite strtof_app, He. split; reflexivity.
Qed.

(** A reply of 9 to 15 characters passes the length test of
    [hambits_get_position]. *)
Lemma get_position_long_enough (az0 el0 : float) (g : stack_garbage)
    (rot : ROT) (s : string) :
  on_write (rotport rot) (writes (rotport rot)) = RIG_OK ->
  on_read (rotport rot) (reads (rotport rot)) = reply s ->
  (9 <= String.length s <= 15)%nat ->
  hambits_get_position az0 el0 g rot
  = Some (RIG_OK, parsed_az s, parsed_el s,
          with_port rot (port_after (Some "getpos;"%string)
                           (Some (uninitialized g)) 15 (rotport rot))).
Proof.
  intros Hw Hr Hs. rewrite hambits_get_position_run.
  unfold buffer_after, write_status, received. rewrite Hw, Hr.
  change (RIG_OK =? RIG_OK) with true. cbv zeta.
  cbn [contents data data_len fst snd reply].
  rewrite to_size_t_small.
  - destruct (Z.ltb_spec 8 (Z.of_nat (String.length s))) as [L|L];
      [reflexivity|lia].
  - unfold SIZE_WIDTH. change (2 ^ 64) with 18446744073709551616. lia.
Qed.

(** X1.  [hambits_get_position] reads every reply of the documented form
    [DDD.dd;DDD.dd;], with or without one more character such as the line
    terminator, as the two floats nearest to the numbers written, and
    returns [RIG_OK]; it does so for all of 000.00 to 999.99, the declared
    ranges playing no part, and the driver state is left alone. *)
Theorem get_position_reads_wire_format (a e : Z) (rest : string)
    (az0 el0 : float) (g : stack_garbage) (rot : ROT) :
  0 <= a <= 99999 -> 0 <= e <= 99999 ->
  (String.length rest <= 1)%nat ->
  on_write (rotport rot) (writes (rotport rot)) = RIG_OK ->
  on_read (rotport rot) (reads (rotport rot))
  = reply (wire_DDD_dd a ++ ";" ++ wire_DDD_dd e ++ ";" ++ rest)%string ->
  exists rot',
    hambits_get_position az0 el0 g rot
    = Some (RIG_OK, of_hundredths a, of_hundredths e, rot')
    /\ priv rot' = priv rot.
Proof.
  intros Ha He Hrest Hw Hr.
  destruct (parsed_fields (wire_DDD_dd a) (wire_DDD_dd e) rest
              (of_hundredths a) (of_hundredths e)
              (strtof_wire a Ha) (strtof_wire e He)) as [Pa Pe].
  rewrite (get_position_long_enough az0 el0 g rot _ Hw Hr).
  - rewrite Pa, Pe. eexists. split; reflexivity.
  - rewrite !string_length_app. cbn [String.length wire_DDD_dd]. lia.
Qed.

Lemma get_position_reads_wire_format_witness :
  exists rot',
    hambits_get_position (of_Z 0) (of_Z 0) some_garbage
      (fresh_rot [] [reply ("999.99;045.50;" ++ newline)%string])
    = Some (RIG_OK, of_hundredths 99999, of_hundredths 4550, rot')
    /\ priv rot' = priv (fresh_rot [] [reply ("999.99;045.50;" ++ newline)%string]).
Proof.
  apply (get_position_reads_wire_format 99999 4550 newline (of_Z 0) (of_Z 0)
           some_garbage
           (fresh_rot [] [reply ("999.99;045.50;" ++ newline)%string])).
  - lia.
  - lia.
  - cbn. lia.
  - reflexivity.
  - reflexivity.
Defined.

(** X2.  For every azimuth in [0, 360] and elevation in [0, 180] that is
    the float nearest to a whole number of hundredths, the command of
    [hambits_set_position] carries exactly those hundredths in decimal, and
    the two numbers printed are read back by [hambits_get_position] as the
    same floats: a reply made of the two printed numbers, each followed by
    [;], gives back that azimuth and elevation. *)
Theorem set_position_numbers_read_back (a e : Z) (rest : string)
    (az0 el0 : float) (g : stack_garbage) (rot : ROT) :
  0 <= a <= 36000 -> 0 <= e <= 18000 ->
  (String.length rest <= 1)%nat ->
  on_write (rotport rot) (writes (rotport rot)) = RIG_OK ->
  on_read (rotport rot) (reads (rotport rot))
  = reply (format_03_2f (of_hundredths a) ++ ";"
           ++ format_03_2f (of_hundredths e) ++ ";" ++ rest)%string ->
  set_position_command (of_hundredths a) (of_hundredths e)
  = ("setaz" ++ fixed2 a ++ ";setel" ++ fixed2 e ++ ";")%string
  /\ exists rot',
       hambits_get_position az0 el0 g rot
       = Some (RIG_OK, of_hundredths a, of_hundredths e, rot').
Proof.
  intros Ha He Hrest Hw Hr.
  destruct (strtof_format a ltac:(lia)) as (Fa & La & Sa).
  destruct (strtof_format e ltac:(lia)) as (Fe & Le & Se).
  split; [unfold set_position_command; now rewrite Fa, Fe|].
  rewrite Fa, Fe in Hr.
  destruct (parsed_fields _ _ rest _ _ Sa Se) as [Pa Pe].
  rewrite (get_position_long_enough az0 el0 g rot _ Hw Hr).
  - rewrite Pa, Pe. eexists. reflexivity.
  - rewrite !string_length_app. cbn [String.length]. lia.
Qed.

Lemma set_position_numbers_read_back_witness :
  exists rot',
    hambits_get_position (of_Z 0) (of_Z 0) some_garbage
      (fresh_rot [] [reply "123.45;67.89;"])
    = Some (RIG_OK, of_hundredths 12345, of_hundredths 6789, rot').
Proof.
  apply (proj2 (set_position_numbers_read_back 12345 6789 "" (of_Z 0) (of_Z 0)
                  some_garbage (fresh_rot [] [reply "123.45;67.89;"])
                  ltac:(lia) ltac:(lia) (Nat.le_0_l 1) eq_refl eq_refl)).
Defined.

(** ** Read errors and write errors *)

Lemma to_size_t_of_error (n : Z) : - 2 ^ 31 <= n < 0 -> 8 < to_size_t n.
Proof.
  intros H. rewrite to_size_t_negative by exact H.
  unfold SIZE_WIDTH. change (2 ^ 64) with 18446744073709551616.
  change (2 ^ 31) with 2147483648 in H. lia.
Qed.

(** X3.  What a transaction reports as the length of the reply: the count
    that [read_string] returned when it is not negative, and [2^64] plus
    the code when [read_string] returned a negative error code, which is
    more than any buffer holds.  In both cases the transaction returns
    [RIG_OK] and the buffer holds the bytes that were read. *)
Theorem transaction_length_reported (cmdstr : option string) (b : reply_buf)
    (len : Z) (rot : ROT) (n : Z) (s : string) :
  write_status cmdstr (rotport rot) = RIG_OK ->
  on_read (rotport rot) (reads (rotport rot)) = (n, s) ->
  - 2 ^ 31 <= n < 2 ^ 31 ->
  exists rot',
    hambits_transaction cmdstr (Some b) len rot
    = Some (RIG_OK,
            Some {| data := s;
                    data_len := if n <? 0 then 2 ^ 64 + n else n |},
            rot')
    /\ (n < 0 -> 2 ^ 64 - 2 ^ 31 <= (if n <? 0 then 2 ^ 64 + n else n)).
Proof.
  intros Hw Hr Hn. rewrite transaction_reply by exact Hw.
  unfold received. rewrite Hr. cbn [fst snd].
  eexists. split.
  - destruct (Z.ltb_spec n 0) as [L|L].
    + rewrite to_size_t_negative by lia. reflexivity.
    + rewrite to_size_t_small; [reflexivity|].
      unfold SIZE_WIDTH. change (2 ^ 64) with 18446744073709551616.
      change (2 ^ 31) with 2147483648 in Hn. lia.
  - intros L. destruct (Z.ltb_spec n 0) as [_|G]; [|lia].
    change (2 ^ 31) with 2147483648 in *. lia.
Qed.

Lemma transaction_length_reported_witness :
  exists rot',
    hambits_transaction (Some "getpos;"%string)
      (Some (uninitialized some_garbage)) 15
      (fresh_rot [] [(- RIG_EIO, "04"%string)])
    = Some (RIG_OK,
            Some {| data := "04"; data_len := 2 ^ 64 + - RIG_EIO |}, rot')
    /\ (- RIG_EIO < 0 -> 2 ^ 64 - 2 ^ 31 <= 2 ^ 64 + - RIG_EIO).
Proof.
  apply (transaction_length_reported (Some "getpos;"%string)
           (uninitialized some_garbage) 15
           (fresh_rot [] [(- RIG_EIO, "04"%string)]) (- RIG_EIO) "04"
           eq_refl eq_refl).
  split; [discriminate|reflexivity].
Defined.

Lemma get_position_read_error_run (n : Z) (s : string)
    (az0 el0 : float) (g : stack_garbage) (rot : ROT) :
  - 2 ^ 31 <= n < 0 ->
  on_write (rotport rot) (writes (rotport rot)) = RIG_OK ->
  on_read (rotport rot) (reads (rotport rot)) = (n, s) ->
  hambits_get_position az0 el0 g rot
  = Some (RIG_OK, parsed_az s, parsed_el s,
          with_port rot (port_after (Some "getpos;"%string)
                           (Some (uninitialized g)) 15 (rotport rot))).
Proof.
  intros Hn Hw Hr. rewrite hambits_get_position_run.
  unfold buffer_after, write_status, received. rewrite Hw, Hr.
  change (RIG_OK =? RIG_OK) with true. cbv zeta.
  cbn [contents data data_len fst snd].
  destruct (Z.ltb_spec 8 (to_size_t n)) as [L|L]; [reflexivity|].
  pose proof (to_size_t_of_error n Hn). lia.
Qed.

(** X4.  When [read_string] fails with a negative code,
    [hambits_get_position] does not fail: for a buffer that holds decimal
    text (digits, points, signs, white space and [;]) it returns [RIG_OK]
    with the two numbers that it reads there, and with an empty buffer, as
    after a timeout, these are 0 and 0. *)
Theorem get_position_after_read_error (n : Z) (s : string)
    (az0 el0 : float) (g : stack_garbage) (rot : ROT) :
  - 2 ^ 31 <= n < 0 ->
  decimal_text s = true ->
  on_write (rotport rot) (writes (rotport rot)) = RIG_OK ->
  on_read (rotport rot) (reads (rotport rot)) = (n, s) ->
  exists rot',
    hambits_get_position az0 el0 g rot
    = Some (RIG_OK, parsed_az s, parsed_el s, rot')
    /\ (s = ""%string ->
        parsed_az s = S754_zero false /\ parsed_el s = S754_zero false).
Proof.
  intros Hn _ Hw Hr.
  rewrite (get_position_read_error_run n s az0 el0 g rot Hn Hw Hr).
  eexists. split; [reflexivity|]. intros ->. split; reflexivity.
Qed.

Lemma get_position_after_read_error_witness :
  exists rot',
    hambits_get_position (of_Z 90) (of_Z 45) some_garbage
      (fresh_rot [] [(- RIG_EIO, "12.5;-7;"%string)])
    = Some (RIG_OK, parsed_az "12.5;-7;", parsed_el "12.5;-7;", rot')
    /\ ("12.5;-7;"%string = ""%string ->
        parsed_az "12.5;-7;" = S754_zero false
        /\ parsed_el "12.5;-7;" = S754_zero false).
Proof.
  apply (get_position_after_read_error (- RIG_EIO) "12.5;-7;" (of_Z 90)
           (of_Z 45) some_garbage
           (fresh_rot [] [(- RIG_EIO, "12.5;-7;"%string)])).
  - split; [discriminate|reflexivity].
  - reflexivity.
  - reflexivity.
  - reflexivity.
Defined.

(** X5.  A stop whose two writes go through and whose read times out with
    an empty buffer returns [RIG_OK] and sets both the current and the
    target position to (0, 0), whatever they were. *)
Theorem stop_after_read_error (n : Z) (g : stack_garbage) (rot : ROT) :
  - 2 ^ 31 <= n < 0 ->
  on_write (rotport rot) (writes (rotport rot)) = RIG_OK ->
  on_write (rotport rot) (S (writes (rotport rot))) = RIG_OK ->
  on_read (rotport rot) (reads (rotport rot)) = (n, ""%string) ->
  exists rot',
    hambits_stop g rot = Some (RIG_OK, rot')
    /\ current rot' = (S754_zero false, S754_zero false)
    /\ target rot' = (S754_zero false, S754_zero false).
Proof.
  intros Hn Hw1 Hw2 Hr. rewrite hambits_stop_run. cbv zeta.
  unfold write_status. rewrite Hw1. change (RIG_OK =? RIG_OK) with true.
  cbv iota.
  rewrite (get_position_read_error_run n "" (g_az g) (g_el g) g
             (with_port rot (sent (Some "stop;"%string) (rotport rot)))
             Hn Hw2 Hr).
  change (RIG_OK =? RIG_OK) with true. cbv iota.
  eexists. split; [reflexivity|]. split; reflexivity.
Qed.

Lemma stop_after_read_error_witness :
  exists rot',
    hambits_stop some_garbage
      {| priv := {| az := of_Z 90; el := of_Z 45;
                    tv := {| tv_sec := 0; tv_usec := 0 |};
                    target_az := of_Z 90; target_el := of_Z 45 |};
         rotport := scripted_port [] [timed_out] |}
    = Some (RIG_OK, rot')
    /\ current rot' = (S754_zero false, S754_zero false)
    /\ target rot' = (S754_zero false, S754_zero false).
Proof.
  apply (stop_after_read_error (- RIG_ETIMEOUT)).
  - split; [discriminate|reflexivity].
  - reflexivity.
  - reflexivity.
  - reflexivity.
Defined.

(** ** Acceptance of a set position *)

Lemma strstr_11_short (h : string) :
  (String.length h <= 1)%nat -> strstr h "11" = None.
Proof.
  destruct h as [|c [|c' h]]; cbn -[ascii_dec]; intros H; try lia;
    [reflexivity|].
  destruct (ascii_dec "1" c); reflexivity.
Qed.

Lemma strstr_11_two (c1 c2 : ascii) :
  strstr (String c1 (String c2 "")) "11"
  = if (Ascii.eqb c1 "1" && Ascii.eqb c2 "1")%bool
    then Some (String c1 (String c2 "")) else None.
Proof.
  cbn -[ascii_dec].
  destruct (ascii_dec "1" c1) as [<-|N1].
  - destruct (ascii_dec "1" c2) as [<-|N2]; [reflexivity|].
    destruct (Ascii.eqb_spec c2 "1") as [->|_]; [now elim N2|reflexivity].
  - destruct (Ascii.eqb_spec c1 "1") as [->|_]; [now elim N1|].
    destruct (ascii_dec "1" c2); reflexivity.
Qed.

Lemma accepted_short_reply (s : string) :
  (String.length s <= 2)%nat ->
  accepted {| data := s; data_len := to_size_t (Z.of_nat (String.length s)) |}
  = String.eqb s "11".
Proof.
  intros H. unfold accepted. cbn [data data_len].
  destruct s as [|c1 [|c2 [|c3 s]]]; [reflexivity| | |cbn in H; lia].
  - rewrite strstr_11_short.
    + rewrite andb_false_r. cbn. now destruct (Ascii.eqb c1 "1").
    + cbn. destruct (Ascii.eqb c1 zero); cbn; lia.
  - replace (0 <? to_size_t (Z.of_nat (String.length (String c1 (String c2 "")))))
      with true by reflexivity.
    cbn [andb String.eqb until_nul].
    destruct (Ascii.eqb_spec c1 zero) as [->|Z1]; [reflexivity|].
    destruct (Ascii.eqb_spec c2 zero) as [->|Z2].
    + rewrite strstr_11_short by (cbn; lia).
      destruct (Ascii.eqb c1 "1"); reflexivity.
    + rewrite strstr_11_two.
      destruct (Ascii.eqb c1 "1"); [|reflexivity].
      destruct (Ascii.eqb c2 "1"); reflexivity.
Qed.

(** X6.  With room for two reply characters, the only reply that
    [hambits_set_position] accepts is [11]: for every reply of at most two
    characters it returns [RIG_OK] when the reply is [11] and [RIG_EINVAL]
    otherwise, and in both cases the target is the requested position. *)
Theorem set_position_accepts_only_11 (a e : float) (g : stack_garbage)
    (rot : ROT) (s : string) :
  (String.length s <= 2)%nat ->
  on_write (rotport rot) (writes (rotport rot)) = RIG_OK ->
  on_read (rotport rot) (reads (rotport rot)) = reply s ->
  exists rot',
    hambits_set_position a e g rot
    = Some ((if String.eqb s "11" then RIG_OK else RIG_EINVAL), rot')
    /\ target rot' = (a, e).
Proof.
  intros Hs Hw Hr. rewrite hambits_set_position_run.
  unfold buffer_after, write_status, received. rewrite Hw, Hr.
  change (RIG_OK =? RIG_OK) with true. cbn [contents reply fst snd].
  rewrite (accepted_short_reply s Hs).
  eexists. split; reflexivity.
Qed.

Lemma set_position_accepts_only_11_witness :
  exists rot',
    hambits_set_position (of_Z 90) (of_Z 45) some_garbage
      (fresh_rot [] [reply "1"])
    = Some (RIG_EINVAL, rot')
    /\ target rot' = (of_Z 90, of_Z 45).
Proof.
  apply (set_position_accepts_only_11 (of_Z 90) (of_Z 45) some_garbage
           (fresh_rot [] [reply "1"]) "1").
  - cbn. lia.
  - reflexivity.
  - reflexivity.
Defined.

(** ** What goes over the port *)

Lemma added_app (l x : list port_event) : added l (l ++ x) = x.
Proof.
  unfold added. induction l as [|ev l IH]; [reflexivity|exact IH].
Qed.

Lemma log_sent (cmd : string) (p : hamlib_port) :
  log (sent (Some cmd) p) = log p ++ [Flush; Write cmd].
Proof. cbn. now rewrite <- app_assoc. Qed.

Lemma log_port_after (cmd : string) (d : option reply_buf) (len : Z)
    (p : hamlib_port) :
  log (port_after (Some cmd) d len p)
  = log p ++ [Flush; Write cmd]
      ++ match d with
         | Some _ =>
             if on_write p (writes p) =? RIG_OK then [Read (len + 1)] else []
         | None => []
         end.
Proof.
  unfold port_after, write_status.
  destruct d as [b|]; [destruct (_ =? _)|]; cbn;
    rewrite <- ?app_assoc, ?app_nil_r; reflexivity.
Qed.

(** X7.  When [write_block] fails, [hambits_set_position] and
    [hambits_get_position] do not report it: no read is made and the value
    returned is [RIG_OK] or [RIG_EINVAL], not the error of the write; the
    set position has stored the requested target all the same. *)
Theorem write_failure_not_reported (a e az0 el0 : float) (g : stack_garbage)
    (rot : ROT) :
  on_write (rotport rot) (writes (rotport rot)) <> RIG_OK ->
  (exists rv rot',
     hambits_set_position a e g rot = Some (rv, rot')
     /\ (rv = RIG_OK \/ rv = RIG_EINVAL)
     /\ target rot' = (a, e)
     /\ reads (rotport rot') = reads (rotport rot)
     /\ writes (rotport rot') = S (writes (rotport rot)))
  /\ (exists rv x y rot',
        hambits_get_position az0 el0 g rot = Some (rv, x, y, rot')
        /\ (rv = RIG_OK \/ rv = RIG_EINVAL)
        /\ priv rot' = priv rot
        /\ reads (rotport rot') = reads (rotport rot)
        /\ writes (rotport rot') = S (writes (rotport rot))).
Proof.
  intros Hw. apply Z.eqb_neq in Hw. split.
  - rewrite hambits_set_position_run.
    unfold port_after, write_status. rewrite Hw.
    do 2 eexists. split; [reflexivity|].
    split; [destruct (accepted _); auto|]. repeat split.
  - rewrite hambits_get_position_run. cbv zeta.
    unfold port_after, write_status. rewrite Hw.
    destruct (8 <? _); do 4 eexists; (split; [reflexivity|]);
      (split; [auto|]); repeat split.
Qed.

Lemma write_failure_not_reported_witness :
  exists rv rot',
    hambits_set_position (of_Z 90) (of_Z 45) some_garbage
      (fresh_rot [- RIG_EIO] [])
    = Some (rv, rot')
    /\ (rv = RIG_OK \/ rv = RIG_EINVAL)
    /\ target rot' = (of_Z 90, of_Z 45)
    /\ reads (rotport rot') = 0%nat
    /\ writes (rotport rot') = 1%nat.
Proof.
  apply (proj1 (write_failure_not_reported (of_Z 90) (of_Z 45) (of_Z 0) (of_Z 0)
                  some_garbage (fresh_rot [- RIG_EIO] [])
                  ltac:(discriminate))).
Defined.

(** X8.  A move after a set position starts from the position that was
    requested, whether or not the device accepted it: after
    [hambits_set_position] to (a, e), with any outcome, a move up writes
    the command for (a, 180), a move down for (a, 0), a move
    counter-clockwise for (0, e) and a move clockwise for (360, e). *)
Theorem move_after_set_position (a e : float) (speed : Z)
    (g g' : stack_garbage) (rot : ROT) :
  exists rv rot1,
    hambits_set_position a e g rot = Some (rv, rot1)
    /\ (forall direction x y,
          In (direction, (x, y))
             [(ROT_MOVE_UP, (a, of_Z 180)); (ROT_MOVE_DOWN, (a, of_Z 0));
              (ROT_MOVE_CCW, (of_Z 0, e)); (ROT_MOVE_CW, (of_Z 360, e))] ->
          exists rv2 rot2,
            hambits_move direction speed g' rot1 = Some (rv2, rot2)
            /\ target rot2 = (x, y)
            /\ commands (log (rotport rot2))
               = commands (log (rotport rot))
                 ++ [set_position_command a e; set_position_command x y]).
Proof.
  rewrite hambits_set_position_run. do 2 eexists. split; [reflexivity|].
  intros direction x y H. cbn [In] in H.
  assert (hambits_move direction speed g'
            (with_port (with_target rot a e)
               (port_after (Some (set_position_command a e))
                  (Some (uninitialized g)) 2 (rotport rot)))
          = hambits_set_position x y g'
              (with_port (with_target rot a e)
                 (port_after (Some (set_position_command a e))
                    (Some (uninitialized g)) 2 (rotport rot)))) as ->.
  { destruct H as [H|[H|[H|[H|[]]]]]; injection H as <- <- <-; reflexivity. }
  rewrite hambits_set_position_run. do 2 eexists.
  split; [reflexivity|]. split; [reflexivity|].
  cbn [rotport with_port with_target].
  rewrite !commands_port_after. now rewrite <- app_assoc.
Qed.

Lemma move_after_set_position_witness :
  exists rv2 rot2,
    hambits_move ROT_MOVE_CW 1 some_garbage
      (with_port (with_target (fresh_rot [] [reply "00"]) (of_Z 10) (of_Z 20))
         (port_after (Some (set_position_command (of_Z 10) (of_Z 20)))
            (Some (uninitialized some_garbage)) 2
            (rotport (fresh_rot [] [reply "00"]))))
    = Some (rv2, rot2)
    /\ target rot2 = (of_Z 360, of_Z 20)
    /\ commands (log (rotport rot2))
       = ["setaz10.00;setel20.00;"; "setaz360.00;setel20.00;"]%string.
Proof.
  destruct (move_after_set_position (of_Z 10) (of_Z 20) 1 some_garbage
              some_garbage (fresh_rot [] [reply "00"]))
    as (rv & rot1 & E & H).
  injection E as _ <-.
  apply (H ROT_MOVE_CW (of_Z 360) (of_Z 20)).
  cbn. auto.
Defined.

(** X9.  What each operation puts on the port, whatever the device does:
    a set position flushes, writes its command and, when the write went
    through, reads once with room for 2 characters; a get position does the
    same with [getpos;] and room for 15; a stop flushes and writes [stop;],
    and only when that write went through goes on with the exchange of a
    get position.  Nothing is ever written or read a second time. *)
Theorem port_traffic (g : stack_garbage) (rot : ROT) :
  let p := rotport rot in
  let first_ok := on_write p (writes p) =? RIG_OK in
  let second_ok := on_write p (S (writes p)) =? RIG_OK in
  (forall a e : float,
     exists rv rot',
       hambits_set_position a e g rot = Some (rv, rot')
       /\ added (log p) (log (rotport rot'))
          = [Flush; Write (set_position_command a e)]
            ++ (if first_ok then [Read 3] else []))
  /\ (forall az0 el0 : float,
        exists r rot',
          hambits_get_position az0 el0 g rot = Some (r, rot')
          /\ added (log p) (log (rotport rot'))
             = [Flush; Write "getpos;"]
               ++ (if first_ok then [Read 16] else []))
  /\ (exists rv rot',
        hambits_stop g rot = Some (rv, rot')
        /\ added (log p) (log (rotport rot'))
           = [Flush; Write "stop;"]
             ++ (if first_ok
                 then [Flush; Write "getpos;"]
                      ++ (if second_ok then [Read 16] else [])
                 else [])).
Proof.
  cbv zeta. split; [|split].
  - intros a e. rewrite hambits_set_position_run. do 2 eexists.
    split; [reflexivity|]. cbn [rotport with_port with_target].
    rewrite log_port_after. apply added_app.
  - intros az0 el0. rewrite hambits_get_position_run. cbv zeta.
    destruct (8 <? _); do 2 eexists; (split; [reflexivity|]);
      cbn [rotport with_port]; rewrite log_port_after; apply added_app.
  - rewrite hambits_stop_run. cbv zeta. unfold write_status.
    destruct (on_write (rotport rot) (writes (rotport rot)) =? RIG_OK).
    + rewrite hambits_get_position_run. cbv zeta.
      destruct (8 <? _); cbn [Z.eqb RIG_OK RIG_EINVAL];
        do 2 eexists; (split; [reflexivity|]);
        cbn [rotport with_port with_position];
        rewrite log_port_after, log_sent, <- app_assoc; apply added_app.
    + do 2 eexists. split; [reflexivity|].
      cbn [rotport with_port]. rewrite log_sent, app_nil_r. apply added_app.
Qed.

(** X10.  [hambits_close] writes [stop;] and reads nothing; it returns
    what [write_block] returned and leaves the driver state as it was.
    When that write fails, a stop on the same rotator leaves the same port
    behind but returns [RIG_EINVAL] in place of the error of the write. *)
Theorem close_returns_write_status (g : stack_garbage) (rot : ROT) :
  exists rot1,
    hambits_close rot
    = Some (on_write (rotport rot) (writes (rotport rot)), rot1)
    /\ priv rot1 = priv rot
    /\ added (log (rotport rot)) (log (rotport rot1)) = [Flush; Write "stop;"]
    /\ reads (rotport rot1) = reads (rotport rot)
    /\ (on_write (rotport rot) (writes (rotport rot)) <> RIG_OK ->
        hambits_stop g rot = Some (RIG_EINVAL, rot1)).
Proof.
  unfold hambits_close, bind. rewrite hambits_transaction_one_pass.
  cbn [buffer_after port_after write_status ret].
  eexists. split; [reflexivity|]. split; [reflexivity|].
  split; [cbn [rotport with_port]; rewrite log_sent; apply added_app|].
  split; [reflexivity|].
  intros Hw. apply Z.eqb_neq in Hw.
  rewrite hambits_stop_run. cbv zeta. unfold write_status. now rewrite Hw.
Qed.

Lemma close_returns_write_status_witness :
  exists rot1,
    hambits_close (fresh_rot [- RIG_EIO] [])
    = Some (- RIG_EIO, rot1)
    /\ hambits_stop some_garbage (fresh_rot [- RIG_EIO] [])
       = Some (RIG_EINVAL, rot1).
Proof.
  destruct (close_returns_write_status some_garbage (fresh_rot [- RIG_EIO] []))
    as (rot1 & E & _ & _ & _ & H).
  exists rot1. split; [exact E|]. apply H. discriminate.
Defined.

(** X11.  A stop that reads the reply [DDD.dd;DDD.dd;] for a position of
    the declared ranges returns [RIG_OK] with that position as the current
    and the target position, and a move upwards after it writes the
    command [setaz] with the azimuth read, printed without zeros on the
    left, and [setel180.00]. *)
Theorem stop_then_move_up (a e : Z) (rest : string) (speed : Z)
    (g g' : stack_garbage) (rot : ROT) :
  0 <= a <= 36000 -> 0 <= e <= 18000 ->
  (String.length rest <= 1)%nat ->
  on_write (rotport rot) (writes (rotport rot)) = RIG_OK ->
  on_write (rotport rot) (S (writes (rotport rot))) = RIG_OK ->
  on_read (rotport rot) (reads (rotport rot))
  = reply (wire_DDD_dd a ++ ";" ++ wire_DDD_dd e ++ ";" ++ rest)%string ->
  exists rot1,
    hambits_stop g rot = Some (RIG_OK, rot1)
    /\ current rot1 = (of_hundredths a, of_hundredths e)
    /\ target rot1 = (of_hundredths a, of_hundredths e)
    /\ exists rv rot2,
         hambits_move ROT_MOVE_UP speed g' rot1 = Some (rv, rot2)
         /\ commands (log (rotport rot2))
            = commands (log (rotport rot))
              ++ ["stop;"; "getpos;";
                  "setaz" ++ fixed2 a ++ ";setel180.00;"]%string.
Proof.
  intros Ha He Hrest Hw1 Hw2 Hr.
  destruct (parsed_fields (wire_DDD_dd a) (wire_DDD_dd e) rest
              (of_hundredths a) (of_hundredths e)
              (strtof_wire a ltac:(lia)) (strtof_wire e ltac:(lia)))
    as [Pa Pe].
  destruct (strtof_format a Ha) as (Fa & _ & _).
  rewrite hambits_stop_run. cbv zeta. unfold write_status.
  rewrite Hw1. change (RIG_OK =? RIG_OK) with true. cbv iota.
  rewrite (get_position_long_enough (g_az g) (g_el g) g
             (with_port rot (sent (Some "stop;"%string) (rotport rot)))
             _ Hw2 Hr).
  - rewrite Pa, Pe. change (RIG_OK =? RIG_OK) with true. cbv iota.
    eexists. split; [reflexivity|]. split; [reflexivity|].
    split; [reflexivity|].
    change (hambits_move ROT_MOVE_UP speed g' ?r)
      with (hambits_set_position (target_az (priv r)) (of_Z 180) g' r).
    rewrite hambits_set_position_run. do 2 eexists. split; [reflexivity|].
    cbn [rotport with_port with_target with_position priv target_az].
    rewrite !commands_port_after.
    unfold set_position_command. rewrite Fa.
    cbn [sent write_block serial_flush snd log].
    rewrite !commands_app. cbn [commands].
    rewrite <- !app_assoc. reflexivity.
  - rewrite !string_length_app. cbn [String.length wire_DDD_dd]. lia.
Qed.

Lemma stop_then_move_up_witness :
  exists rot1,
    hambits_stop some_garbage
      (fresh_rot [] [reply ("045.50;090.25;" ++ newline)%string])
    = Some (RIG_OK, rot1)
    /\ current rot1 = (of_hundredths 4550, of_hundredths 9025)
    /\ target rot1 = (of_hundredths 4550, of_hundredths 9025)
    /\ exists rv rot2,
         hambits_move ROT_MOVE_UP 1 some_garbage rot1 = Some (rv, rot2)
         /\ commands (log (rotport rot2))
            = ["stop;"; "getpos;"; "setaz" ++ fixed2 4550 ++ ";setel180.00;"]%string.
Proof.
  apply (stop_then_move_up 4550 9025 newline 1 some_garbage some_garbage
           (fresh_rot [] [reply ("045.50;090.25;" ++ newline)%string])).
  - lia.
  - lia.
  - cbn. lia.
  - reflexivity.
  - reflexivity.
  - reflexivity.
Defined.
